(** * LensTools confidence-contour engine: a shallow embedding of
      [lenstools/contours.py] and the properties of its likelihood-level
      search, grid reduction and pixel/physical unit bookkeeping.

    Numbers: Python floats are modelled as exact rationals ([Q]); the
    statements below are therefore about the arithmetic the code writes
    down, not about binary64 rounding (one example, on primitive floats,
    shows where the two part).  Where numpy would produce [inf] or [nan]
    (a division by zero inside an array operation, the chi-squared
    quantile of a level outside [0, 1]) the model has [x / 0 = 0] and a
    rational seed; no statement below rests on such a value.  Python ints
    are [Z], array extents [nat].  Exceptions are values of [pyerr]; a
    method that raises returns [Err], and the object is then not looked
    at again.  Calls into matplotlib are left out. *)

From Stdlib Require Import ZArith QArith Qabs Qround Lia List Bool String Sorted.
From Stdlib Require Import Floats.
From stdpp Require Import base option list gmap strings sorting.

Local Open Scope Q_scope.

(* ------------------------------------------------------------------ *)
(** ** Python exceptions as an error monad                             *)
(* ------------------------------------------------------------------ *)

Inductive pyerr : Set :=
| AssertionError
| IndexError
| KeyError
| ValueError
| ZeroDivisionError
| AttributeError
| NoSectionError.

Inductive result (A : Type) : Type :=
| Ok (a : A)
| Err (e : pyerr).

Arguments Ok {A} a.
Arguments Err {A} e.

#[global] Instance result_ret : MRet result := fun _ a => Ok a.
#[global] Instance result_bind : MBind result := fun _ _ k m =>
  match m with
  | Ok a => k a
  | Err e => Err e
  end.

(** [assert cond] *)
Definition py_assert (b : bool) : result unit :=
  if b then Ok tt else Err AssertionError.

(** [d[k]] on a dict: [KeyError] when the key is missing. *)
Definition getitem {V : Type} (d : gmap string V) (k : string) : result V :=
  match d !! k with
  | Some v => Ok v
  | None => Err KeyError
  end.

(** [l[i]] on a list or 1-D array with a non-negative index. *)
Definition index {A : Type} (l : list A) (i : nat) : result A :=
  match l !! i with
  | Some v => Ok v
  | None => Err IndexError
  end.

(* ------------------------------------------------------------------ *)
(** ** Numeric helpers                                                 *)
(* ------------------------------------------------------------------ *)

Definition Qeqb (a b : Q) : bool := Qeq_bool a b.
Definition Qleb (a b : Q) : bool := Qle_bool a b.
Definition Qltb (a b : Q) : bool := negb (Qle_bool b a).

(** Python's [int(x)] on a float: truncation toward zero. *)
Definition py_int (q : Q) : Z := Z.quot (Qnum q) (Zpos (Qden q)).


(** Python-float true division: raises on a zero divisor. *)
Definition py_div (a b : Q) : result Q :=
  if Qeqb b 0 then Err ZeroDivisionError else Ok (a / b).

Definition Qsum (l : list Q) : Q := fold_right Qplus 0 l.

Fixpoint Qmax_list (l : list Q) : option Q :=
  match l with
  | [] => None
  | x :: r =>
      match Qmax_list r with
      | None => Some x
      | Some m => Some (if Qltb x m then m else x)
      end
  end.

(** [ndarray.max()]: [ValueError] on a zero-size array. *)
Definition arr_max (l : list Q) : result Q :=
  match Qmax_list l with
  | Some m => Ok m
  | None => Err ValueError
  end.

(** [np.where(cond)[0][0]]: first index satisfying [f], [IndexError] when
    there is none. *)
Fixpoint first_index_from {A : Type} (f : A -> bool) (l : list A) (i : nat)
  : result nat :=
  match l with
  | [] => Err IndexError
  | x :: r => if f x then Ok i else first_index_from f r (S i)
  end.

Definition first_index {A : Type} (f : A -> bool) (l : list A) : result nat :=
  first_index_from f l 0.

(** [np.linspace(a, b, n)] *)
Definition linspace (a b : Q) (n : Z) : result (list Q) :=
  if (n <? 0)%Z then Err ValueError
  else if (n =? 1)%Z then Ok [a]
  else
    let step := (b - a) / inject_Z (n - 1) in
    Ok (map (fun i => inject_Z (Z.of_nat i) * step + a) (seq 0 (Z.to_nat n))).

(** The unit conversions the class writes inline:
    [int((coordinate - self.min[p]) / self.unit[p])] in [value], [slice]
    and [point], and [pixel * self.unit[p] + self.min[p]] in [getMaximum].
    The quotient and the product are exact here and rounded to binary64 in
    Python, where a quotient can fall just below the integer it equals
    here; the properties below are stated on the index that the
    conversion returns, and none on its composition with
    [pixel_to_physical]. *)
Definition physical_to_pixel (mn un v : Q) : result Z :=
  q ← py_div (v - mn) un; Ok (py_int q).

Definition pixel_to_physical (mn un : Q) (p : Z) : Q :=
  inject_Z p * un + mn.





(* ------------------------------------------------------------------ *)
(** ** N-dimensional arrays (row-major, as numpy stores them)          *)
(* ------------------------------------------------------------------ *)

Record ndarray : Type := mk_ndarray {
  shape : list nat;
  data : list Q
}.

Definition ndim (a : ndarray) : nat := length (shape a).

Definition prod_nat (l : list nat) : nat := fold_right Nat.mul 1%nat l.

(** [a.sum()] and [a.max()] over all the entries. *)
Definition arr_sum (a : ndarray) : Q := Qsum (data a).

(** [a / c] and [a /= c]: entrywise division by a scalar. *)
Definition arr_div (a : ndarray) (c : Q) : ndarray :=
  mk_ndarray (shape a) (map (fun v => v / c) (data a)).

(** Extents before and after [axis], so that the flat position of
    [(o, j, i)] is [(o * n + j) * inner + i]. *)
Definition outer_of (a : ndarray) (axis : nat) : nat :=
  prod_nat (firstn axis (shape a)).
Definition inner_of (a : ndarray) (axis : nat) : nat :=
  prod_nat (skipn (S axis) (shape a)).

(** [a.sum(axis)]: [ValueError] when the axis does not exist. *)
Definition sum_axis (a : ndarray) (axis : nat) : result ndarray :=
  match shape a !! axis with
  | None => Err ValueError
  | Some n =>
      let inner := inner_of a axis in
      let cell (r : nat) : Q :=
        let o := (r / inner)%nat in
        let i := (r mod inner)%nat in
        Qsum (map (fun j => nth ((o * n + j) * inner + i) (data a) 0)
                  (seq 0 n)) in
      Ok (mk_ndarray (firstn axis (shape a) ++ skipn (S axis) (shape a))
                     (map cell (seq 0 (outer_of a axis * inner))))
  end.

(** [a.sum(axis=tuple(axes))]: the axes are reduced from the last one down,
    so that the positions of the others do not shift. *)
Fixpoint insert_desc (x : nat) (l : list nat) : list nat :=
  match l with
  | [] => [x]
  | y :: r => if (y <=? x)%nat then x :: l else y :: insert_desc x r
  end.

Definition sort_desc (l : list nat) : list nat := fold_right insert_desc [] l.

Fixpoint sum_axes_desc (a : ndarray) (axes : list nat) : result ndarray :=
  match axes with
  | [] => Ok a
  | k :: r => b ← sum_axis a k; sum_axes_desc b r
  end.

Definition sum_axes (a : ndarray) (axes : list nat) : result ndarray :=
  sum_axes_desc a (sort_desc axes).

(** Coordinate along [axis] of the entry stored at flat position [pos]. *)
Definition coord_along (a : ndarray) (axis n pos : nat) : nat :=
  ((pos / inner_of a axis) mod n)%nat.

Fixpoint filter_pos {A : Type} (f : nat -> bool) (l : list A) (pos : nat)
  : list A :=
  match l with
  | [] => []
  | x :: r => if f pos then x :: filter_pos f r (S pos)
              else filter_pos f r (S pos)
  end.

Fixpoint map_pos {A : Type} (f : nat -> A -> A) (l : list A) (pos : nat)
  : list A :=
  match l with
  | [] => []
  | x :: r => f pos x :: map_pos f r (S pos)
  end.

(** [np.split(a, sections, axis)]: [sections] equal blocks along [axis];
    [ValueError] when the extent is not a multiple of [sections] or
    [sections] is negative.  The
    blocks are views on [a]; block [k] covers the coordinates
    [k * width .. (k + 1) * width - 1]. *)
Definition split_width (a : ndarray) (sections : Z) (axis : nat)
  : result nat :=
  match shape a !! axis with
  | None => Err IndexError
  | Some n =>
      if (sections =? 0)%Z then Err ZeroDivisionError
      else if (sections <? 0)%Z then Err ValueError
      else if (Z.of_nat n mod sections =? 0)%Z
           then Ok (n / Z.to_nat sections)%nat
           else Err ValueError
  end.

Definition in_block (a : ndarray) (axis width k pos : nat) : bool :=
  let n := nth axis (shape a) 0%nat in
  let c := coord_along a axis n pos in
  ((k * width <=? c) && (c <? (k + 1) * width))%nat.

Definition block (a : ndarray) (axis width k : nat) : ndarray :=
  mk_ndarray (firstn axis (shape a) ++ width :: skipn (S axis) (shape a))
             (filter_pos (in_block a axis width k) (data a) 0).

(** [a.squeeze()]: every axis of extent one is removed. *)
Definition squeeze (a : ndarray) : ndarray :=
  mk_ndarray (filter (fun n => negb (n =? 1)%nat) (shape a)) (data a).

(** In-place [view /= c] on block [k]: the entries of the parent array
    that the view covers are the ones divided. *)
Definition div_block_inplace (a : ndarray) (axis width k : nat) (c : Q)
  : ndarray :=
  mk_ndarray (shape a)
             (map_pos (fun pos v => if in_block a axis width k pos
                                    then v / c else v) (data a) 0).

(** [a[tuple(pix)]] with one integer per axis: each index wraps when
    negative and raises [IndexError] outside [-n, n). *)
Definition wrap_index (n : nat) (i : Z) : result nat :=
  let z := Z.of_nat n in
  if (0 <=? i)%Z && (i <? z)%Z then Ok (Z.to_nat i)
  else if (- z <=? i)%Z && (i <? 0)%Z then Ok (Z.to_nat (i + z))
  else Err IndexError.

Fixpoint flat_offset (shp : list nat) (pix : list Z) (acc : nat)
  : result nat :=
  match shp, pix with
  | [], [] => Ok acc
  | n :: shp', i :: pix' =>
      j ← wrap_index n i; flat_offset shp' pix' (acc * n + j)
  | _, _ => Err IndexError
  end.

Definition arr_getitem (a : ndarray) (pix : list Z) : result Q :=
  off ← flat_offset (shape a) pix 0; index (data a) off.

(* ------------------------------------------------------------------ *)
(** ** Library routines the module calls (numpy / scipy)               *)
(* ------------------------------------------------------------------ *)

(** [list.sort(key=...)]: a stable sort; [klt] is the strict order on the
    keys.  An element is inserted in front of the later elements whose key
    is not smaller, so equal keys keep their input order. *)
Fixpoint insert_by {A K : Type} (klt : K -> K -> bool) (key : A -> K)
  (x : A) (l : list A) : list A :=
  match l with
  | [] => [x]
  | y :: r => if klt (key y) (key x) then y :: insert_by klt key x r
              else x :: l
  end.

Definition sort_by {A K : Type} (klt : K -> K -> bool) (key : A -> K)
  (l : list A) : list A :=
  fold_right (insert_by klt key) [] l.

(** [np.argmin(l)]: position of the first smallest entry. *)
Fixpoint argmin_from (l : list Q) (i : nat) (best : nat) (bv : Q) : nat :=
  match l with
  | [] => best
  | x :: r => if Qltb x bv then argmin_from r (S i) i x
              else argmin_from r (S i) best bv
  end.

Definition argmin (l : list Q) : result nat :=
  match l with
  | [] => Err ValueError
  | x :: r => Ok (argmin_from r 1 0 x)
  end.

(** [scipy.stats.rankdata(l)] with its default method ("average"): the
    rank of an entry is the mean of the 1-based positions its tie group
    occupies in sorted order. *)
Definition count_if {A : Type} (f : A -> bool) (l : list A) : Z :=
  Z.of_nat (length (filter f l)).

Definition rankdata (l : list Q) : list Q :=
  map (fun x =>
         inject_Z (count_if (fun y => Qltb y x) l)
         + (inject_Z (count_if (fun y => Qeqb y x) l) + 1) / 2) l.

(** [scipy.integrate.simps(y, x=x)] with its default [even='avg'].
    [basic_simps] is scipy's [_basic_simps]: Simpson's rule on the
    panels that start at [start, start + 2, ...] below [stop], with the
    weights for unequal spacings.  A negative [stop] only occurs for
    fewer than three samples, where the panel list is empty. *)
Definition panel_starts (start : nat) (stop : Z) : list nat :=
  filter (fun k => (Z.of_nat k <? stop)%Z)
         (map (fun m => (start + 2 * m)%nat) (seq 0 (Z.to_nat stop))).

Definition simps_panel (y x : list Q) (k : nat) : Q :=
  let h0 := nth (k + 1) x 0 - nth k x 0 in
  let h1 := nth (k + 2) x 0 - nth (k + 1) x 0 in
  let hsum := h0 + h1 in
  let hprod := h0 * h1 in
  let h0divh1 := h0 / h1 in
  hsum / 6 * (nth k y 0 * (2 - 1 / h0divh1)
              + nth (k + 1) y 0 * hsum * hsum / hprod
              + nth (k + 2) y 0 * (2 - h0divh1)).

Definition basic_simps (y x : list Q) (start : nat) (stop : Z) : Q :=
  Qsum (map (simps_panel y x) (panel_starts start stop)).

Definition simps (y x : list Q) : result Q :=
  let N := length y in
  if negb (length x =? N)%nat then Err ValueError
  else if (N mod 2 =? 0)%nat then
    match N with
    | O => Err IndexError
    | _ =>
        let last_dx := nth (N - 1) x 0 - nth (N - 2) x 0 in
        let val1 := (1 # 2) * last_dx * (nth (N - 1) y 0 + nth (N - 2) y 0) in
        let res1 := basic_simps y x 0 (Z.of_nat N - 3) in
        let first_dx := nth 1 x 0 - nth 0 x 0 in
        let val2 := val1 + (1 # 2) * first_dx * (nth 1 y 0 + nth 0 y 0) in
        let res2 := res1 + basic_simps y x 1 (Z.of_nat N - 2) in
        Ok (res2 / 2 + val2 / 2)
    end
  else Ok (basic_simps y x 0 (Z.of_nat N - 2)).

(* ------------------------------------------------------------------ *)
(** ** [_1d_level_values]                                              *)
(* ------------------------------------------------------------------ *)

Definition all_levels_of (l : list Q) : list Q :=
  map (fun ln => Qsum (filter (fun v => Qleb ln v) l) / Qsum l) l.

Fixpoint collect_ranks (p : list Q) (ranks : list Z) (ns : list nat)
  : result (list Q) :=
  match ns with
  | [] => Ok []
  | n :: r =>
      i ← first_index (fun rk => (rk =? Z.of_nat n)%Z) ranks;
      v ← index p i;
      rest ← collect_ranks p ranks r;
      Ok (v :: rest)
  end.

Definition _1d_level_values (p l : list Q) (level : Q) (quantity : nat)
  : result (list Q) :=
  (* Find the maximum of the likelihood *)
  lmax ← arr_max l;
  maximum ← first_index (fun v => Qeqb v lmax) l;
  parmax ← index p maximum;
  let all_levels := all_levels_of l in
  (* Find the closest level *)
  closest ← argmin (map (fun a => Qabs (a - level)) all_levels);
  lc ← index l closest;
  (* Find the n corresponding parameter values *)
  let ranks :=
    map (fun r => (py_int r - 1)%Z)
        (rankdata (map (fun v => Qabs (v - lc)) l)) in
  par ← collect_ranks p ranks (seq 0 quantity);
  (* Sort parameters in order of closeness to the maximum *)
  Ok (sort_by Qltb (fun x => Qabs (x - parmax)) par).

(* ------------------------------------------------------------------ *)
(** ** The [ContourPlot] object                                        *)
(* ------------------------------------------------------------------ *)

(** [parameter_axes] is a dict whose iteration order the code relies on
    ([keys()]), so it is kept as an association list in that order.  The
    calibration dicts are only ever looked up by name.  An attribute that
    has not been set yet is [None]. *)
Record ContourPlot : Type := mk_ContourPlot {
  self_min : gmap string Q;
  self_max : gmap string Q;
  self_npoints : gmap string Z;
  self_unit : gmap string Q;
  parameter_axes : option (list (string * nat));
  likelihood : option ndarray;
  reduced_likelihood : option ndarray;
  remaining_parameters : option (list string);
  extent : option (Q * Q * Q * Q);
  original_p_values : option (list Q);
  computed_p_values : option (list Q);
  likelihood_values : option (list Q)
}.

(** [ContourPlot.__init__] (the figure and axes are left out). *)
Definition init : ContourPlot :=
  mk_ContourPlot ∅ ∅ ∅ ∅ None None None None None None None None.

(** [hasattr] guarded by an [assert], and plain attribute access. *)
Definition assert_hasattr {A : Type} (o : option A) : result A :=
  match o with
  | Some a => Ok a
  | None => Err AssertionError
  end.

Definition getattr {A : Type} (o : option A) : result A :=
  match o with
  | Some a => Ok a
  | None => Err AttributeError
  end.

(** [d.keys()], [d[k]], [d.get(k)] and [k in d.keys()] on [parameter_axes]. *)
Definition keys (d : list (string * nat)) : list string := map fst d.

Fixpoint axes_get (d : list (string * nat)) (k : string) : option nat :=
  match d with
  | [] => None
  | (k', v) :: r => if String.eqb k' k then Some v else axes_get r k
  end.

Definition axes_getitem (d : list (string * nat)) (k : string) : result nat :=
  match axes_get d k with
  | Some v => Ok v
  | None => Err KeyError
  end.

Definition in_keys (d : list (string * nat)) (k : string) : bool :=
  existsb (String.eqb k) (keys d).

(** [l.pop(l.index(x))]: the first occurrence of [x] is removed;
    [ValueError] when there is none. *)
Fixpoint pop_first (x : string) (l : list string) : result (list string) :=
  match l with
  | [] => Err ValueError
  | y :: r => if String.eqb y x then Ok r
              else r' ← pop_first x r; Ok (y :: r')
  end.

(** Order on the sort keys [parameter_axes.get(name)]: Python 2 puts
    [None] below every int. *)
Definition key_lt (a b : option nat) : bool :=
  match a, b with
  | None, None => false
  | None, Some _ => true
  | Some _, None => false
  | Some x, Some y => (x <? y)%nat
  end.

(** [getLikelihood] called with an array. *)
Definition getLikelihood (self : ContourPlot) (arr : ndarray)
  (axes : list (string * nat)) : result ContourPlot :=
  _ ← py_assert (length (keys axes) =? ndim arr)%nat;
  Ok (mk_ContourPlot (self_min self) (self_max self) (self_npoints self)
        (self_unit self) (Some axes) (Some arr)
        (reduced_likelihood self) (remaining_parameters self) (extent self)
        (original_p_values self) (computed_p_values self)
        (likelihood_values self)).

(** Calibration updates keep every other attribute. *)
Definition with_units (self : ContourPlot)
  (mn mx : gmap string Q) (np : gmap string Z) (un : gmap string Q)
  : ContourPlot :=
  mk_ContourPlot mn mx np un (parameter_axes self) (likelihood self)
    (reduced_likelihood self) (remaining_parameters self) (extent self)
    (original_p_values self) (computed_p_values self)
    (likelihood_values self).

(** [getUnitsFromOptions]: [options] stands for the parsed options file,
    giving [(min, max, num_points)] for a section name. *)
Fixpoint getUnits_loop (options : string -> option (Q * Q * Z))
  (axes : list (string * nat)) (lik : ndarray) (parameters : list string)
  (self : ContourPlot) : result ContourPlot :=
  match parameters with
  | [] => Ok self
  | parameter :: rest =>
      '(mn, mx, np) ← match options parameter with
                      | Some t => Ok t
                      | None => Err NoSectionError
                      end;
      axis ← axes_getitem axes parameter;
      n ← index (shape lik) axis;
      _ ← py_assert (np =? Z.of_nat n)%Z;
      un ← py_div (mx - mn) (inject_Z (np - 1));
      getUnits_loop options axes lik rest
        (with_units self (<[parameter := mn]> (self_min self))
           (<[parameter := mx]> (self_max self))
           (<[parameter := np]> (self_npoints self))
           (<[parameter := un]> (self_unit self)))
  end.

Definition getUnitsFromOptions (self : ContourPlot)
  (options : string -> option (Q * Q * Z)) : result ContourPlot :=
  axes ← assert_hasattr (parameter_axes self);
  lik ← getattr (likelihood self);
  getUnits_loop options axes lik (keys axes) self.

Definition setUnits (self : ContourPlot) (parameter : string)
  (parameter_min parameter_max parameter_unit : Q) : result ContourPlot :=
  axes ← assert_hasattr (parameter_axes self);
  _ ← py_assert (in_keys axes parameter);
  Ok (with_units self (<[parameter := parameter_min]> (self_min self))
        (<[parameter := parameter_max]> (self_max self))
        (self_npoints self)
        (<[parameter := parameter_unit]> (self_unit self))).

(** [value]: the likelihood at a physical point, [None] when numpy raises
    [IndexError] on the pixel tuple.  The pixels are integral floats, which
    the numpy this Python 2 module was written for takes as integer
    indices. *)
Fixpoint value_loop (self : ContourPlot) (axes : list (string * nat))
  (coordinates : list Q) (parameters : list string) (pix : list Z)
  : result (list Z) :=
  match parameters with
  | [] => Ok pix
  | parameter :: rest =>
      _ ← py_assert (bool_decide (is_Some (self_unit self !! parameter))
                     && bool_decide (is_Some (self_min self !! parameter)));
      axis ← axes_getitem axes parameter;
      c ← index coordinates axis;
      mn ← getitem (self_min self) parameter;
      un ← getitem (self_unit self) parameter;
      p ← physical_to_pixel mn un c;
      value_loop self axes coordinates rest (<[axis := p]> pix)
  end.

Definition value (self : ContourPlot) (coordinates : list Q)
  : result (option Q) :=
  lik ← getattr (likelihood self);
  _ ← py_assert (length coordinates =? ndim lik)%nat;
  axes ← getattr (parameter_axes self);
  pix ← value_loop self axes coordinates (keys axes)
          (repeat 0%Z (length coordinates));
  match arr_getitem lik pix with
  | Ok v => Ok (Some v)
  | Err IndexError => Ok None
  | Err e => Err e
  end.

(** [np.where(a == a.max())], first hit: its coordinate along [axis]. *)
Definition max_loc (a : ndarray) : result nat :=
  m ← arr_max (data a); first_index (fun v => Qeqb v m) (data a).

Definition max_coord (a : ndarray) (axis : nat) : result nat :=
  pos ← max_loc a;
  n ← index (shape a) axis;
  Ok (coord_along a axis n pos).

Fixpoint getMaximum_full (self : ContourPlot) (lik : ndarray)
  (axes : list (string * nat)) (parameters : list string)
  (acc : gmap string Q) : result (gmap string Q) :=
  match parameters with
  | [] => Ok acc
  | parameter :: rest =>
      axis ← axes_getitem axes parameter;
      c ← max_coord lik axis;
      un ← getitem (self_unit self) parameter;
      mn ← getitem (self_min self) parameter;
      getMaximum_full self lik axes rest
        (<[parameter := pixel_to_physical mn un (Z.of_nat c)]> acc)
  end.

Fixpoint getMaximum_reduced (self : ContourPlot) (red : ndarray)
  (n : nat) (parameters : list string) (acc : gmap string Q)
  : result (gmap string Q) :=
  match parameters with
  | [] => Ok acc
  | parameter :: rest =>
      c ← max_coord red n;
      un ← getitem (self_unit self) parameter;
      mn ← getitem (self_min self) parameter;
      getMaximum_reduced self red (S n) rest
        (<[parameter := pixel_to_physical mn un (Z.of_nat c)]> acc)
  end.

Definition getMaximum (self : ContourPlot) (which : string)
  : result (gmap string Q) :=
  if String.eqb which "full" then
    lik ← getattr (likelihood self);
    axes ← getattr (parameter_axes self);
    getMaximum_full self lik axes (keys axes) ∅
  else if String.eqb which "reduced" then
    red ← getattr (reduced_likelihood self);
    rem ← getattr (remaining_parameters self);
    getMaximum_reduced self red 0 rem ∅
  else Err ValueError.

(** The attributes a reduction rewrites. *)
Definition with_reduction (self : ContourPlot) (lik red : ndarray)
  (rem : list string) (ext : Q * Q * Q * Q) : ContourPlot :=
  mk_ContourPlot (self_min self) (self_max self) (self_npoints self)
    (self_unit self) (parameter_axes self) (Some lik) (Some red) (Some rem)
    (Some ext) (original_p_values self) (computed_p_values self)
    (likelihood_values self).

(** [self.extent = (min[r[0]], max[r[0]], min[r[1]], max[r[1]])] *)
Definition compute_extent (self : ContourPlot) (rem : list string)
  : result (Q * Q * Q * Q) :=
  r0 ← index rem 0; a ← getitem (self_min self) r0;
  r0' ← index rem 0; b ← getitem (self_max self) r0';
  r1 ← index rem 1; c ← getitem (self_min self) r1;
  r1' ← index rem 1; d ← getitem (self_max self) r1';
  Ok (a, b, c, d).

(** [marginalize] (the axis limits of the plot are left out). *)
Definition marginalize (self : ContourPlot) (parameter_name : string)
  : result ContourPlot :=
  lik ← assert_hasattr (likelihood self);
  axes ← getattr (parameter_axes self);
  _ ← py_assert (in_keys axes parameter_name);
  '(red, rem) ←
    (if (ndim lik <? 3)%nat then
       Ok (arr_div lik (arr_sum lik), keys axes)
     else
       axis ← axes_getitem axes parameter_name;
       summed ← sum_axis lik axis;
       (* Normalize *)
       let red := arr_div summed (arr_sum summed) in
       (* Find the remaining parameters *)
       rem ← pop_first parameter_name (keys axes);
       (* Sort the remaining parameter names so that the corresponding
          axes are in increasing order *)
       Ok (red, sort_by key_lt (axes_get axes) rem));
  ext ← compute_extent self rem;
  Ok (with_reduction self lik red rem ext).

(** [slice].  [np.split] returns views, [squeeze] keeps the view, and the
    normalisation is done in place: the selected hyperplane of
    [self.likelihood] is divided as well. *)
Definition slice (self : ContourPlot) (parameter_name : string)
  (parameter_value : Q) : result ContourPlot :=
  lik ← assert_hasattr (likelihood self);
  axes ← getattr (parameter_axes self);
  _ ← py_assert (in_keys axes parameter_name);
  '(lik', red, rem) ←
    (if (ndim lik <? 3)%nat then
       Ok (lik, arr_div lik (arr_sum lik), keys axes)
     else
       (* Select the slice *)
       slice_axis ← axes_getitem axes parameter_name;
       mn ← getitem (self_min self) parameter_name;
       un ← getitem (self_unit self) parameter_name;
       slice_index ← physical_to_pixel mn un parameter_value;
       np ← getitem (self_npoints self) parameter_name;
       _ ← py_assert (slice_index <? np)%Z;
       (* Get the slice *)
       width ← split_width lik np slice_axis;
       k ← wrap_index (Z.to_nat np) slice_index;
       let view := squeeze (block lik slice_axis width k) in
       (* Normalize *)
       let s := arr_sum view in
       (* Find the remaining parameters *)
       rem ← pop_first parameter_name (keys axes);
       Ok (div_block_inplace lik slice_axis width k s, arr_div view s,
           sort_by key_lt (axes_get axes) rem));
  ext ← compute_extent self rem;
  Ok (with_reduction self lik' red rem ext).

(** [a[px, py]] on the reduced likelihood: the sub-array under the two
    leading indices (a scalar, of shape [()], when the array is 2-D). *)
Definition arr_getsub (a : ndarray) (pix : list Z) : result ndarray :=
  off ← flat_offset (firstn (length pix) (shape a)) pix 0;
  _ ← (if (length pix <=? ndim a)%nat then Ok tt else Err IndexError);
  let rest := skipn (length pix) (shape a) in
  let size := prod_nat rest in
  Ok (mk_ndarray rest (firstn size (skipn (off * size) (data a)))).

(** [point] (the marker drawn on the plot is left out). *)
Definition point (self : ContourPlot) (coordinate_x coordinate_y : Q)
  : result ndarray :=
  rem ← getattr (remaining_parameters self);
  r0 ← index rem 0;
  mn0 ← getitem (self_min self) r0;
  r0' ← index rem 0;
  un0 ← getitem (self_unit self) r0';
  px ← physical_to_pixel mn0 un0 coordinate_x;
  r1 ← index rem 1;
  mn1 ← getitem (self_min self) r1;
  r1' ← index rem 1;
  un1 ← getitem (self_unit self) r1';
  py ← physical_to_pixel mn1 un1 coordinate_y;
  red ← getattr (reduced_likelihood self);
  arr_getsub red [px; py].

(** [marginal]: the likelihood of one parameter, the others summed out. *)
Record marginal_result : Type := mk_marginal_result {
  parameter_range : list Q;
  marginal_likelihood : list Q;
  par_max : Q;
  par_extremes : option (list (Q * Q))
}.

Fixpoint axes_of (axes : list (string * nat)) (pars : list string)
  : result (list nat) :=
  match pars with
  | [] => Ok []
  | par :: r => a ← axes_getitem axes par; l ← axes_of axes r; Ok (a :: l)
  end.

Fixpoint extremes_loop (range ml : list Q) (levels : list Q)
  : result (list (Q * Q)) :=
  match levels with
  | [] => Ok []
  | level :: r =>
      pL ← _1d_level_values range ml level 3;
      a ← index pL 0;
      b ← index pL 1;
      rest ← extremes_loop range ml r;
      Ok ((a, b) :: rest)
  end.

(** The summed array is 1-D whenever the registered axes are the distinct
    axes of the grid; [simps] is modelled for that case only. *)
Definition marginal (self : ContourPlot) (parameter_name : string)
  (levels : option (list Q)) : result marginal_result :=
  lik ← assert_hasattr (likelihood self);
  axes ← getattr (parameter_axes self);
  _ ← py_assert (in_keys axes parameter_name);
  remaining_parameters ← pop_first parameter_name (keys axes);
  remaining_parameter_axes ← axes_of axes remaining_parameters;
  (* Marginalize the likelihood *)
  mn ← getitem (self_min self) parameter_name;
  mx ← getitem (self_max self) parameter_name;
  np ← getitem (self_npoints self) parameter_name;
  range ← linspace mn mx np;
  summed ← sum_axes lik remaining_parameter_axes;
  _ ← (if (ndim summed =? 1)%nat then Ok tt else Err ValueError);
  (* Compute the normalization *)
  normalization ← simps (data summed) range;
  let ml := map (fun v => v / normalization) (data summed) in
  (* Compute the maximum *)
  m ← arr_max ml;
  imax ← first_index (fun v => Qeqb v m) ml;
  pmax ← index range imax;
  (* Compute also the contour extremes if levels *)
  match levels with
  | Some lv =>
      ext ← extremes_loop range ml lv;
      Ok (mk_marginal_result range ml pmax (Some ext))
  | None => Ok (mk_marginal_result range ml pmax None)
  end.

(* ------------------------------------------------------------------ *)
(** ** [getLikelihoodValues]: the level-value search                   *)
(* ------------------------------------------------------------------ *)

(** [likelihood[likelihood > value].sum()] *)
Definition confidence (lik : ndarray) (value : Q) : Q :=
  Qsum (filter (fun v => Qltb value v) (data lik)).

(** The variables of the search.  [step] and [direction] are initialised
    once, before the loop over the levels; [value] and
    [confidence_integral] are set afresh for each level. *)
Record search_state : Type := mk_search_state {
  s_value : Q;
  s_confidence_integral : Q;
  s_step : Q;
  s_direction : Z
}.

(** The [while] condition, [abs(confidence_integral / level - 1.0) >
    epsilon].  The quotient is a numpy one: for a zero [level] it is [nan]
    when the confidence is zero too, and the comparison is false, and it
    is infinite otherwise, and the comparison is true. *)
Definition off_target (level epsilon : Q) (s : search_state) : bool :=
  if Qeqb level 0 then negb (Qeqb (s_confidence_integral s) 0)
  else Qltb epsilon (Qabs (s_confidence_integral s / level - 1)).

(** One pass through the body of the [while] loop, after the iteration
    counter has been checked. *)
Definition search_step (lik : ndarray) (level : Q) (s : search_state)
  : search_state :=
  if Qltb level (s_confidence_integral s) then
    let step := if (s_direction s =? -1)%Z then s_step s / 10
                else s_step s in
    let value := s_value s + step in
    mk_search_state value (confidence lik value) step 1
  else
    let step := if (s_direction s =? 1)%Z then s_step s / 10
                else s_step s in
    let value := s_value s - step in
    mk_search_state value (confidence lik value) step (-1).

(** The [while] loop.  [fuel] is the number of passes the iteration
    counter still allows: it starts at [max_iterations], and the loop
    breaks when the condition holds with none left. *)
Fixpoint search_loop (lik : ndarray) (level epsilon : Q) (fuel : nat)
  (s : search_state) : search_state :=
  if off_target level epsilon s then
    match fuel with
    | O => s
    | S fuel' => search_loop lik level epsilon fuel' (search_step lik level s)
    end
  else s.

(** The state after [n] passes through the loop body. *)
Fixpoint passes (lik : ndarray) (level : Q) (n : nat) (s : search_state)
  : search_state :=
  match n with
  | O => s
  | S n' => passes lik level n' (search_step lik level s)
  end.

(** A pass moves against the recorded direction. *)
Definition flips (level : Q) (s : search_state) : bool :=
  if Qltb level (s_confidence_integral s) then (s_direction s =? -1)%Z
  else (s_direction s =? 1)%Z.

Section LevelSearch.

(** [approx_equal_one s] tells whether
    [np.testing.assert_approx_equal(s, 1.0)] passes, and [chi2_seed level]
    is [np.exp(-0.5 * stats.chi2(2).ppf(level))]. *)
Variable approx_equal_one : Q -> bool.
Variable chi2_seed : Q -> Q.

(** The body of [for level in levels], from the state the previous
    level left behind. *)
Definition search_level (lik : ndarray) (max_likelihood epsilon : Q)
  (max_iterations : Z) (step : Q) (direction : Z) (level : Q)
  : search_state :=
  (* Start with a guess based on a chi2 distribution with 2 degrees of
     freedom *)
  let value := max_likelihood * chi2_seed level in
  search_loop lik level epsilon (Z.to_nat max_iterations)
    (mk_search_state value (confidence lik value) step direction).

Fixpoint levels_loop (lik : ndarray) (max_likelihood epsilon : Q)
  (max_iterations : Z) (levels : list Q) (step : Q) (direction : Z)
  (values p_values : list Q) : list Q * list Q :=
  match levels with
  | [] => (values, p_values)
  | level :: rest =>
      let s := search_level lik max_likelihood epsilon max_iterations
                 step direction level in
      levels_loop lik max_likelihood epsilon max_iterations rest
        (s_step s) (s_direction s)
        (values ++ [s_value s]) (p_values ++ [s_confidence_integral s])
  end.

(** The states in which the successive level searches end, in the order
    of the levels; each search starts from the [step] and [direction]
    its predecessor ended with. *)
Fixpoint search_trace (lik : ndarray) (max_likelihood epsilon : Q)
  (max_iterations : Z) (levels : list Q) (step : Q) (direction : Z)
  : list search_state :=
  match levels with
  | [] => []
  | level :: rest =>
      let s := search_level lik max_likelihood epsilon max_iterations
                 step direction level in
      s :: search_trace lik max_likelihood epsilon max_iterations rest
             (s_step s) (s_direction s)
  end.

(** The method returns [values]; the achieved confidences are kept on
    the object as [computed_p_values]. *)
Definition getLikelihoodValues (self : ContourPlot) (levels : list Q)
  (epsilon : Q) (max_iterations : Z) : result (ContourPlot * list Q) :=
  lik ← getattr (reduced_likelihood self);
  (* Check sanity of input, likelihood must be normalized *)
  _ ← py_assert (ndim lik =? 2)%nat;
  _ ← py_assert (approx_equal_one (arr_sum lik));
  (* Maximum value of the likelihood *)
  max_likelihood ← arr_max (data lik);
  (* Initial step for the search *)
  let step := max_likelihood in
  let direction := 0%Z in
  let '(values, p_values) :=
    levels_loop lik max_likelihood epsilon max_iterations levels
      step direction [] [] in
  Ok (mk_ContourPlot (self_min self) (self_max self) (self_npoints self)
        (self_unit self) (parameter_axes self) (likelihood self)
        (reduced_likelihood self) (remaining_parameters self)
        (extent self) (Some levels) (Some p_values) (Some values),
      values).

End LevelSearch.

(** The seed in closed form: the chi-squared law with two degrees of
    freedom has quantile [-2 ln(1 - L)], so
    [exp(-0.5 * ppf(L)) = 1 - L]. *)
Definition chi2_seed_exact (level : Q) : Q := 1 - level.

(** An instance of the normalisation check: agreement with one to within
    [10^-7]. *)
Definition approx_equal_one_7 (s : Q) : bool :=
  Qltb (Qabs (s - 1)) (1 # 10000000).

(* ------------------------------------------------------------------ *)
(** ** Registry invariants and sample objects                          *)
(* ------------------------------------------------------------------ *)

(** What loading and calibrating a grid establishes: names and axes are
    distinct, every axis exists, and every parameter has a minimum and a
    non-zero unit. *)
Record registry_ok (self : ContourPlot) (axes : list (string * nat))
  (lik : ndarray) : Prop := mk_registry_ok {
  reg_keys : NoDup (keys axes);
  reg_axes : NoDup (map snd axes);
  reg_range : Forall (fun pa => (snd pa < ndim lik)%nat) axes;
  reg_calibrated :
    Forall (fun pa => exists mn un,
                self_min self !! fst pa = Some mn /\
                self_unit self !! fst pa = Some un /\
                ~ un == 0) axes
}.

(** Loading a grid and reading its units from an options file. *)
Definition load (arr : ndarray) (axes : list (string * nat))
  (options : string -> option (Q * Q * Z)) : result ContourPlot :=
  self ← getLikelihood init arr axes; getUnitsFromOptions self options.

Definition sample_options (name : string) : option (Q * Q * Z) :=
  if String.eqb name "Omega_m" then Some (0, 1, 2%Z)
  else if String.eqb name "w" then Some (-2, 0, 3%Z)
  else if String.eqb name "sigma8" then Some (0, 1, 2%Z)
  else None.

(** A 2 x 3 x 2 grid over (Omega_m, w, sigma8). *)
Definition grid3 : ndarray :=
  mk_ndarray [2; 3; 2]%nat [1; 2; 3; 4; 5; 6; 7; 8; 9; 10; 11; 12].

Definition axes3 : list (string * nat) :=
  [("Omega_m", 0%nat); ("w", 1%nat); ("sigma8", 2%nat)].

(** A 2 x 2 grid over (Omega_m, sigma8) whose dict lists sigma8 first. *)
Definition grid2 : ndarray := mk_ndarray [2; 2]%nat [1; 2; 3; 4].

Definition axes2 : list (string * nat) :=
  [("sigma8", 1%nat); ("Omega_m", 0%nat)].

(** The same grid, already reduced and normalised. *)
Definition reduced2 : ContourPlot :=
  mk_ContourPlot ∅ ∅ ∅ ∅ None None
    (Some (mk_ndarray [2; 2]%nat [1 # 10; 2 # 10; 3 # 10; 4 # 10]))
    None None None None None.

(** Readers for the outcome of a call, with the rationals in lowest
    terms. *)
Definition thresholds_of (r : result (ContourPlot * list Q))
  : option (list Q) :=
  match r with
  | Ok (_, values) => Some (map Qred values)
  | Err _ => None
  end.

Definition confidences_of (r : result (ContourPlot * list Q))
  : option (list Q) :=
  match r with
  | Ok (self, _) => map Qred <$> computed_p_values self
  | Err _ => None
  end.

Definition remaining_of (r : result ContourPlot) : option (list string) :=
  match r with
  | Ok self => remaining_parameters self
  | Err _ => None
  end.

(** A second normalised 2 x 2 grid with the same maximum as [reduced2]. *)
Definition reduced2' : ContourPlot :=
  mk_ContourPlot ∅ ∅ ∅ ∅ None None
    (Some (mk_ndarray [2; 2]%nat [4 # 10; 4 # 10; 1 # 10; 1 # 10]))
    None None None None None.

(** A list of parameter names whose axes, as [parameter_axes] gives them,
    never decrease. *)
Definition axis_ascending (axes : list (string * nat)) (names : list string)
  : Prop :=
  StronglySorted
    (fun a b => key_lt (axes_get axes b) (axes_get axes a) = false) names.

(** [grid3] loaded and calibrated. *)
Definition loaded3 : result ContourPlot := load grid3 axes3 sample_options.

(** [grid2] loaded and calibrated. *)
Definition loaded2 : result ContourPlot := load grid2 axes2 sample_options.

Definition calibration_of (r : result ContourPlot) (name : string)
  : option (Q * Q * Z * Q) :=
  match r with
  | Ok self =>
      mn ← self_min self !! name; mx ← self_max self !! name;
      np ← self_npoints self !! name; un ← self_unit self !! name;
      Some (mn, mx, np, un)
  | Err _ => None
  end.

(** The object that loading and calibrating [grid3] produces. *)
Definition sample3 : ContourPlot :=
  mk_ContourPlot
    (<["sigma8" := 0]> (<["w" := -2]> (<["Omega_m" := 0]> ∅)))
    (<["sigma8" := 1]> (<["w" := 0]> (<["Omega_m" := 1]> ∅)))
    (<["sigma8" := 2%Z]> (<["w" := 3%Z]> (<["Omega_m" := 2%Z]> ∅)))
    (<["sigma8" := (1 - 0) / inject_Z (2 - 1)]>
       (<["w" := (0 - -2) / inject_Z (3 - 1)]>
          (<["Omega_m" := (1 - 0) / inject_Z (2 - 1)]> ∅)))
    (Some axes3) (Some grid3) None None None None None None.

(** A flat 1-D likelihood over [w], sampled at three points of [0, top]. *)
Definition flat_w (top : Q) : result ContourPlot :=
  load (mk_ndarray [3]%nat [1; 1; 1]) [("w", 0%nat)]
       (fun _ => Some (0, top, 3%Z)).

Definition range_of (r : result marginal_result) : option (list Q) :=
  match r with
  | Ok m => Some (map Qred (parameter_range m))
  | Err _ => None
  end.

Definition element_sum_of (r : result marginal_result) : option Q :=
  match r with
  | Ok m => Some (Qred (Qsum (marginal_likelihood m)))
  | Err _ => None
  end.

Definition integral_of (r : result marginal_result) : option Q :=
  match r with
  | Ok m =>
      match simps (marginal_likelihood m) (parameter_range m) with
      | Ok q => Some (Qred q)
      | Err _ => None
      end
  | Err _ => None
  end.

(* ------------------------------------------------------------------ *)
(** ** Statements about the calibration                                *)
(* ------------------------------------------------------------------ *)

(** What the options file must say about a parameter for
    [getUnitsFromOptions] to go through: the section exists, the pixel
    count is the extent of the parameter's axis, and it is not one. *)
Definition option_fits (options : string -> option (Q * Q * Z))
  (axes : list (string * nat)) (lik : ndarray) (p : string) : Prop :=
  exists mn mx np axis,
    options p = Some (mn, mx, np) /\
    axes_get axes p = Some axis /\
    shape lik !! axis = Some (Z.to_nat np) /\
    (0 <= np)%Z /\ np <> 1%Z.

(** The calibration of [p] on [self] is the one the options give. *)
Definition calibrated_by (options : string -> option (Q * Q * Z))
  (self : ContourPlot) (p : string) : Prop :=
  exists mn mx np,
    options p = Some (mn, mx, np) /\
    self_min self !! p = Some mn /\
    self_max self !! p = Some mx /\
    self_npoints self !! p = Some np /\
    self_unit self !! p = Some ((mx - mn) / inject_Z (np - 1)).

(** Two objects agree on the calibration of [p]. *)
Definition same_calibration (self self' : ContourPlot) (p : string) : Prop :=
  self_min self' !! p = self_min self !! p /\
  self_max self' !! p = self_max self !! p /\
  self_npoints self' !! p = self_npoints self !! p /\
  self_unit self' !! p = self_unit self !! p.

(** Every axis of the grid belongs to a registered parameter. *)
Definition covers (axes : list (string * nat)) (lik : ndarray) : Prop :=
  forall ax, (ax < ndim lik)%nat -> exists p, (p, ax) ∈ axes.

(** The sum of [f 0 .. f (n - 1)]. *)
Definition qsum_n (n : nat) (f : nat -> Q) : Q := Qsum (map f (seq 0 n)).

(** [grid3] loaded, before any calibration. *)
Definition raw3 : ContourPlot :=
  mk_ContourPlot ∅ ∅ ∅ ∅ (Some axes3) (Some grid3)
    None None None None None None.

(** [sample3] after [marginalize("w")]. *)
Definition marginalized3 : result ContourPlot := marginalize sample3 "w".

(** A reduced 2 x 2 likelihood over (Omega_m, sigma8) with unit steps. *)
Definition reduced_named : ContourPlot :=
  mk_ContourPlot
    (<["sigma8" := 0]> (<["Omega_m" := 0]> ∅)) ∅ ∅
    (<["sigma8" := 1]> (<["Omega_m" := 1]> ∅)) None None
    (Some (mk_ndarray [2; 2]%nat [1 # 10; 2 # 10; 3 # 10; 4 # 10]))
    (Some ["Omega_m"; "sigma8"]) None None None None.

(* ------------------------------------------------------------------ *)
(** ** [expectationValue] and [variance]                               *)
(* ------------------------------------------------------------------ *)

(** [np.meshgrid] over the sample axes with matrix ("ij") indexing: one
    array per axis, all of the shape made of the lengths, array [k]
    repeating axis [k] along its own direction. *)
Definition meshgrid (mesh_axes : list (list Q)) : list ndarray :=
  let shp := map length mesh_axes in
  imap (fun k ax =>
          mk_ndarray shp
            (map (fun pos =>
                    nth ((pos / prod_nat (skipn (S k) shp)) mod length ax)
                        ax 0)
                 (seq 0 (prod_nat shp))))
       mesh_axes.

(** [[np.linspace(self.min[par], self.max[par], self.npoints[par])
      for par in parameters]] *)
Fixpoint mesh_axes_of (self : ContourPlot) (parameters : list string)
  : result (list (list Q)) :=
  match parameters with
  | [] => Ok []
  | par :: rest =>
      mn ← getitem (self_min self) par;
      mx ← getitem (self_max self) par;
      np ← getitem (self_npoints self) par;
      ax ← linspace mn mx np;
      others ← mesh_axes_of self rest;
      Ok (ax :: others)
  end.

(** The parameter mesh both methods build: the parameters sorted by
    axis, one sample axis each. *)
Definition parameter_mesh_of (self : ContourPlot)
  (axes : list (string * nat)) : result (list ndarray) :=
  let parameters := sort_by key_lt (axes_get axes) (keys axes) in
  mesh_axes ← mesh_axes_of self parameters;
  Ok (meshgrid mesh_axes).

Arguments parameter_mesh_of : simpl never.

(** Entrywise product of two arrays of the same shape.  (numpy also
    multiplies shapes that broadcast; the model stops at equal shapes.) *)
Definition arr_mul (a b : ndarray) : result ndarray :=
  if bool_decide (shape a = shape b)
  then Ok (mk_ndarray (shape a) (zip_with Qmult (data a) (data b)))
  else Err ValueError.

(** [function] is the user's function of the mesh, taken to return an
    array. *)
Definition expectationValue (self : ContourPlot)
  (function : list ndarray -> ndarray) : result Q :=
  lik ← assert_hasattr (likelihood self);
  (* Parameters *)
  axes ← getattr (parameter_axes self);
  (* Initialize the parameter mesh *)
  parameter_mesh ← parameter_mesh_of self axes;
  (* Compute the expectation value *)
  weighted ← arr_mul (function parameter_mesh) lik;
  Ok (arr_sum weighted / arr_sum lik).

Definition variance (self : ContourPlot)
  (function : list ndarray -> ndarray) : result Q :=
  expectation ← expectationValue self function;
  (* Parameters *)
  axes ← getattr (parameter_axes self);
  (* Initialize the parameter mesh *)
  parameter_mesh ← parameter_mesh_of self axes;
  (* Compute the variance *)
  lik ← getattr (likelihood self);
  let f := function parameter_mesh in
  let deviation :=
    mk_ndarray (shape f)
               (map (fun x => (x - expectation) * (x - expectation))
                    (data f)) in
  weighted ← arr_mul lik deviation;
  Ok (arr_sum weighted / arr_sum lik).

(** The function of the mesh that reads off the second parameter. *)
Definition second_parameter (mesh : list ndarray) : ndarray :=
  default (mk_ndarray [] []) (mesh !! 1%nat).

(* ------------------------------------------------------------------ *)
(** * Properties                                                       *)
(* ------------------------------------------------------------------ *)

(** ** Arithmetic of the helpers *)

Lemma py_int_of_Z (q : Q) (z : Z) : q == inject_Z z -> py_int q = z.
Proof.
  unfold py_int, Qeq, inject_Z. simpl. intros H.
  rewrite Z.mul_1_r in H. rewrite H.
  apply Z.quot_mul. discriminate.
Qed.

Lemma Qeqb_false_iff (a b : Q) : Qeqb a b = false <-> ~ a == b.
Proof.
  unfold Qeqb. split.
  - intros H E. apply Qeq_bool_iff in E. congruence.
  - intros H. destruct (Qeq_bool a b) eqn:E; [|reflexivity].
    apply Qeq_bool_iff in E. contradiction.
Qed.

Lemma py_div_ok (a b : Q) : ~ b == 0 -> py_div a b = Ok (a / b).
Proof.
  intros H. unfold py_div. apply Qeqb_false_iff in H. rewrite H. reflexivity.
Qed.

Lemma py_div_inv (a b q : Q) : py_div a b = Ok q -> ~ b == 0 /\ q = a / b.
Proof.
  unfold py_div. destruct (Qeqb b 0) eqn:E; [discriminate|].
  intros [= <-]. split; [now apply Qeqb_false_iff|reflexivity].
Qed.


(** ** C1: pixel / physical conversions *)




(** ** C3: what a change of direction does to the step *)

(** C3, as stated, fails: on a pass that turns the search around the step
    is not halved.  From step 1 and direction -1, with the confidence above
    the level, the new step is 1/10. *)
Lemma step_is_not_halved :
  let lik := mk_ndarray [1; 1]%nat [1] in
  let s := mk_search_state 0 1 1 (-1) in
  flips (1 # 2) s = true /\
  s_step (search_step lik (1 # 2) s) == 1 # 10 /\
  ~ s_step (search_step lik (1 # 2) s) == s_step s / 2.
Proof.
  cbv zeta. split; [reflexivity|]. split; [reflexivity|].
  intros E. vm_compute in E. discriminate.
Qed.

(** C3 (amended): in every pass of the search loop that moves against the
    recorded direction (up after -1, down after +1) the step is divided by
    ten before the value is moved by the new step in the new direction,
    and the confidence is recomputed at the new value. *)
Theorem flip_divides_step_by_ten (lik : ndarray) (level : Q)
  (s : search_state) :
  flips level s = true ->
  let s' := search_step lik level s in
  s_step s' = s_step s / 10 /\
  s_direction s' = (- s_direction s)%Z /\
  s_value s' = s_value s + inject_Z (s_direction s') * s_step s' /\
  s_confidence_integral s' = confidence lik (s_value s').
Proof.
  unfold flips, search_step.
  destruct (Qltb level (s_confidence_integral s)); intros Hd;
    apply Z.eqb_eq in Hd; rewrite Hd; simpl.
  - repeat split. unfold Qplus, Qmult, inject_Z. simpl.
    destruct (s_value s) as [vn vd], (s_step s) as [sn sd]. simpl.
    f_equal. destruct sn; reflexivity.
  - repeat split.
Qed.

Lemma flip_divides_step_by_ten_witness :
  s_step (search_step (mk_ndarray [1; 1]%nat [1]) (1 # 2)
            (mk_search_state 0 1 1 (-1)))
  = 1 / 10.
Proof.
  apply (flip_divides_step_by_ten (mk_ndarray [1; 1]%nat [1]) (1 # 2)
           (mk_search_state 0 1 1 (-1))).
  reflexivity.
Defined.

(** ** The level-value search *)

Lemma search_step_confidence (lik : ndarray) (level : Q) (s : search_state) :
  s_confidence_integral (search_step lik level s)
  = confidence lik (s_value (search_step lik level s)).
Proof.
  unfold search_step.
  destruct (Qltb level (s_confidence_integral s)); reflexivity.
Qed.

(** The loop ends either within the tolerance or with its passes used up;
    in both cases the confidence it holds is that of the value it holds. *)
Lemma search_loop_outcome (lik : ndarray) (level epsilon : Q) (fuel : nat) :
  forall s : search_state,
    s_confidence_integral s = confidence lik (s_value s) ->
    let s' := search_loop lik level epsilon fuel s in
    s_confidence_integral s' = confidence lik (s_value s') /\
    (off_target level epsilon s' = false \/ s' = passes lik level fuel s).
Proof.
  induction fuel as [|fuel IH]; intros s Hs; simpl.
  - destruct (off_target level epsilon s) eqn:E; auto.
  - destruct (off_target level epsilon s) eqn:E; [|auto].
    apply IH, search_step_confidence.
Qed.

Section LevelSearchFacts.

Variable approx_equal_one : Q -> bool.
Variable chi2_seed : Q -> Q.

Lemma levels_loop_trace (lik : ndarray) (maxl epsilon : Q) (maxit : Z)
  (levels : list Q) :
  forall (step : Q) (direction : Z) (values p_values : list Q),
    levels_loop chi2_seed lik maxl epsilon maxit levels step direction
      values p_values
    = (values ++ map s_value
                   (search_trace chi2_seed lik maxl epsilon maxit levels
                      step direction),
       p_values ++ map s_confidence_integral
                     (search_trace chi2_seed lik maxl epsilon maxit levels
                        step direction)).
Proof.
  induction levels as [|level rest IH]; intros step direction vs ps; simpl.
  - now rewrite !app_nil_r.
  - rewrite IH, <- !app_assoc. reflexivity.
Qed.

Lemma search_trace_length (lik : ndarray) (maxl epsilon : Q) (maxit : Z)
  (levels : list Q) :
  forall (step : Q) (direction : Z),
    length (search_trace chi2_seed lik maxl epsilon maxit levels
              step direction) = length levels.
Proof.
  induction levels as [|level rest IH]; intros; simpl; [|rewrite IH];
    reflexivity.
Qed.

(** Entry [i] of the trace is the search for level [i], started from
    some carried-over step and direction. *)
Lemma search_trace_lookup (lik : ndarray) (maxl epsilon : Q) (maxit : Z)
  (levels : list Q) :
  forall (step : Q) (direction : Z) (i : nat) (level : Q),
    levels !! i = Some level ->
    exists (step' : Q) (direction' : Z),
      search_trace chi2_seed lik maxl epsilon maxit levels step direction
        !! i
      = Some (search_level chi2_seed lik maxl epsilon maxit
                step' direction' level).
Proof.
  induction levels as [|l0 rest IH]; intros step direction i level Hi.
  - destruct i; discriminate.
  - destruct i as [|i]; simpl in *.
    + injection Hi as ->. eauto.
    + eapply IH. exact Hi.
Qed.

Lemma search_level_outcome (lik : ndarray) (maxl epsilon : Q) (maxit : Z)
  (step : Q) (direction : Z) (level : Q) :
  let s := search_level chi2_seed lik maxl epsilon maxit step direction
             level in
  s_confidence_integral s = confidence lik (s_value s) /\
  (off_target level epsilon s = false \/
   s = passes lik level (Z.to_nat maxit)
         (mk_search_state (maxl * chi2_seed level)
            (confidence lik (maxl * chi2_seed level)) step direction)).
Proof. apply search_loop_outcome. reflexivity. Qed.

(** A grid that passes the normalisation check has a maximum. *)
Lemma arr_max_ok (lik : ndarray) :
  approx_equal_one 0 = false ->
  approx_equal_one (arr_sum lik) = true ->
  exists m : Q, arr_max (data lik) = Ok m.
Proof.
  intros H0 H1. unfold arr_max, arr_sum in *.
  destruct (data lik) as [|x r] eqn:E.
  - simpl in H1. congruence.
  - simpl. destruct (Qmax_list r); eauto.
Qed.

End LevelSearchFacts.

(** C2 (the code departs from it): the search for a level is not
    independent of the levels before it.  [step] and [direction] are set
    once, before the loop over the levels, so the second search starts
    with what the first one left.  On the grid [[0.1, 0.2], [0.3, 0.4]]
    with the default tolerance, level 0.7 searched alone ends at 0.28,
    and searched after level 0.4 it ends at 0.20; with ten iterations
    allowed it even stops short of the tolerance, at 0.16 with
    confidence 0.9. *)
Theorem levels_share_search_state :
  let search := getLikelihoodValues approx_equal_one_7 chi2_seed_exact
                  reduced2 in
  (thresholds_of (search [4 # 10; 7 # 10] (1 # 100) 1000%Z)
     = Some [9 # 25; 1 # 5] /\
   thresholds_of (search [7 # 10] (1 # 100) 1000%Z) = Some [7 # 25]) /\
  (thresholds_of (search [4 # 10; 7 # 10] (1 # 100) 10%Z)
     = Some [9 # 25; 4 # 25] /\
   confidences_of (search [4 # 10; 7 # 10] (1 # 100) 10%Z)
     = Some [2 # 5; 9 # 10] /\
   thresholds_of (search [7 # 10] (1 # 100) 10%Z) = Some [7 # 25] /\
   confidences_of (search [7 # 10] (1 # 100) 10%Z) = Some [7 # 10]).
Proof. vm_compute. repeat split. Qed.

(** C4, as stated, fails: the value returned does not hold the achieved
    confidences.  On two normalised grids the method returns the same
    thing for level 0.7 at tolerance 1/2, while the confidences it
    achieved, 0.9 and 0.8, differ; they are only kept on the object. *)
Lemma returned_value_omits_confidence :
  let r := getLikelihoodValues approx_equal_one_7 chi2_seed_exact
             reduced2 [7 # 10] (1 # 2) 1000%Z in
  let r' := getLikelihoodValues approx_equal_one_7 chi2_seed_exact
              reduced2' [7 # 10] (1 # 2) 1000%Z in
  (exists self self' values,
      r = Ok (self, values) /\ r' = Ok (self', values)) /\
  confidences_of r = Some [9 # 10] /\
  confidences_of r' = Some [4 # 5].
Proof.
  cbv zeta. split; [|split; reflexivity].
  do 3 eexists. split; vm_compute; reflexivity.
Qed.

(** C4 (amended): on a 2-D grid that passes the normalisation check, for
    every sequence of levels the method raises nothing; it returns the
    sequence of threshold values, and keeps it on the object next to the
    parallel sequence of achieved confidences ([likelihood_values] and
    [computed_p_values]): one entry per level, in the order of the
    levels, each confidence being that of the threshold beside it.  A
    search that uses up [max_iterations] without reaching the tolerance
    records the value it has reached after that many passes. *)
Theorem getLikelihoodValues_outputs (approx_equal_one : Q -> bool)
  (chi2_seed : Q -> Q) (self : ContourPlot) (lik : ndarray)
  (levels : list Q) (epsilon : Q) (max_iterations : Z) :
  approx_equal_one 0 = false ->
  reduced_likelihood self = Some lik ->
  ndim lik = 2%nat ->
  approx_equal_one (arr_sum lik) = true ->
  exists (self' : ContourPlot) (maxl : Q) (trace : list search_state),
    arr_max (data lik) = Ok maxl /\
    getLikelihoodValues approx_equal_one chi2_seed self levels epsilon
      max_iterations = Ok (self', map s_value trace) /\
    likelihood_values self' = Some (map s_value trace) /\
    computed_p_values self' = Some (map s_confidence_integral trace) /\
    length trace = length levels /\
    forall (i : nat) (level : Q),
      levels !! i = Some level ->
      exists (s : search_state) (step : Q) (direction : Z),
        trace !! i = Some s /\
        s = search_level chi2_seed lik maxl epsilon max_iterations
              step direction level /\
        s_confidence_integral s = confidence lik (s_value s) /\
        (off_target level epsilon s = false \/
         s = passes lik level (Z.to_nat max_iterations)
               (mk_search_state (maxl * chi2_seed level)
                  (confidence lik (maxl * chi2_seed level))
                  step direction)).
Proof.
  intros H0 Hred Hdim Hsum.
  destruct (arr_max_ok approx_equal_one lik H0 Hsum) as [maxl Hmax].
  eexists _, maxl,
    (search_trace chi2_seed lik maxl epsilon max_iterations levels maxl 0).
  split; [exact Hmax|].
  split.
  { unfold getLikelihoodValues. rewrite Hred. simpl.
    rewrite Hdim. simpl. rewrite Hsum. simpl. rewrite Hmax. simpl.
    rewrite levels_loop_trace. simpl. reflexivity. }
  split; [reflexivity|]. split; [reflexivity|].
  split; [apply search_trace_length|].
  intros i level Hi.
  destruct (search_trace_lookup chi2_seed lik maxl epsilon max_iterations
              levels maxl 0 i level Hi) as (step & direction & Hs).
  eexists _, step, direction. split; [exact Hs|]. split; [reflexivity|].
  apply search_level_outcome.
Qed.

Lemma getLikelihoodValues_outputs_witness :
  exists (self' : ContourPlot) (values : list Q),
    getLikelihoodValues approx_equal_one_7 chi2_seed_exact reduced2
      [4 # 10; 7 # 10] (1 # 100) 10%Z = Ok (self', values) /\
    length values = 2%nat.
Proof.
  destruct (getLikelihoodValues_outputs approx_equal_one_7 chi2_seed_exact
              reduced2
              (mk_ndarray [2; 2]%nat [1 # 10; 2 # 10; 3 # 10; 4 # 10])
              [4 # 10; 7 # 10] (1 # 100) 10%Z)
    as (self' & maxl & trace & _ & Hret & _ & _ & Hlen & _);
    try reflexivity.
  exists self', (map s_value trace). split; [exact Hret|].
  rewrite length_map. exact Hlen.
Defined.

(** C5, as stated, fails: a normalised array of another dimensionality is
    turned down.  A 3-D array whose entries sum to one exactly does not
    pass. *)
Lemma normalised_3d_grid_rejected :
  let lik := mk_ndarray [1; 1; 2]%nat [1 # 2; 1 # 2] in
  arr_sum lik == 1 /\
  approx_equal_one_7 (arr_sum lik) = true /\
  getLikelihoodValues approx_equal_one_7 chi2_seed_exact
    (mk_ContourPlot ∅ ∅ ∅ ∅ None None (Some lik) None None None None None)
    [683 # 1000] (1 # 100) 1000%Z = Err AssertionError.
Proof. cbv zeta. repeat split. Qed.

(** C5 (amended): the level-value search takes a 2-D array only.  It
    fails at once, with an assertion error, exactly when the reduced
    likelihood is not 2-D or its sum is not approximately one; a 2-D array
    whose sum is approximately one is searched without error. *)
Theorem level_search_precondition (approx_equal_one : Q -> bool)
  (chi2_seed : Q -> Q) (self : ContourPlot) (lik : ndarray)
  (levels : list Q) (epsilon : Q) (max_iterations : Z) :
  approx_equal_one 0 = false ->
  reduced_likelihood self = Some lik ->
  let r := getLikelihoodValues approx_equal_one chi2_seed self levels
             epsilon max_iterations in
  (r = Err AssertionError <->
   ndim lik <> 2%nat \/ approx_equal_one (arr_sum lik) = false) /\
  (ndim lik = 2%nat -> approx_equal_one (arr_sum lik) = true ->
   exists out, r = Ok out).
Proof.
  intros H0 Hred r. subst r. unfold getLikelihoodValues. rewrite Hred. simpl.
  destruct (Nat.eqb_spec (ndim lik) 2) as [Hd|Hd]; simpl.
  - destruct (approx_equal_one (arr_sum lik)) eqn:Hs; simpl.
    + destruct (arr_max_ok approx_equal_one lik H0 Hs) as [m Hm].
      rewrite Hm. simpl.
      destruct (levels_loop _ _ _ _ _ _ _ _ _ _) as [vs ps].
      split; [|eauto].
      split; [discriminate|]. intros [?|?]; [contradiction|discriminate].
    + split; [|discriminate]. split; auto.
  - split; [|contradiction]. split; auto.
Qed.

Lemma level_search_precondition_witness :
  exists out,
    getLikelihoodValues approx_equal_one_7 chi2_seed_exact reduced2
      [683 # 1000] (1 # 100) 1000%Z = Ok out.
Proof.
  apply (level_search_precondition approx_equal_one_7 chi2_seed_exact
           reduced2
           (mk_ndarray [2; 2]%nat [1 # 10; 2 # 10; 3 # 10; 4 # 10])
           [683 # 1000] (1 # 100) 1000%Z); reflexivity.
Defined.

(** ** Sorting by key *)

Section SortBy.

Context {A K : Type} (klt : K -> K -> bool) (key : A -> K).

Hypothesis klt_asym : forall x y, klt x y = true -> klt y x = false.
Hypothesis kle_trans :
  forall x y z, klt y x = false -> klt z y = false -> klt z x = false.

Let kle (a b : A) : Prop := klt (key b) (key a) = false.

Lemma insert_by_perm (x : A) (l : list A) :
  insert_by klt key x l ≡ₚ x :: l.
Proof.
  induction l as [|y r IH]; simpl; [reflexivity|].
  destruct (klt (key y) (key x)); [|reflexivity].
  rewrite IH. apply perm_swap.
Qed.

Lemma sort_by_perm (l : list A) : sort_by klt key l ≡ₚ l.
Proof.
  induction l as [|x r IH]; simpl; [reflexivity|].
  unfold sort_by in *. simpl. rewrite insert_by_perm, IH. reflexivity.
Qed.

Lemma insert_by_sorted (x : A) (l : list A) :
  StronglySorted kle l -> StronglySorted kle (insert_by klt key x l).
Proof.
  induction 1 as [|y r Hr IH Hy]; simpl.
  - repeat constructor.
  - destruct (klt (key y) (key x)) eqn:E.
    + constructor; [exact IH|].
      rewrite insert_by_perm. constructor; [|exact Hy].
      unfold kle. now apply klt_asym.
    + constructor; [now constructor|].
      constructor; [exact E|].
      eapply Forall_impl; [exact Hy|]. intros z Hz. unfold kle in *.
      eapply kle_trans; eassumption.
Qed.

Lemma sort_by_sorted (l : list A) : StronglySorted kle (sort_by klt key l).
Proof.
  induction l as [|x r IH]; simpl; [constructor|].
  now apply insert_by_sorted.
Qed.

End SortBy.

Lemma key_lt_asym (x y : option nat) : key_lt x y = true -> key_lt y x = false.
Proof.
  destruct x as [x|], y as [y|]; simpl; try congruence.
  intros H. apply Nat.ltb_lt in H. apply Nat.ltb_ge. lia.
Qed.

Lemma key_le_trans (x y z : option nat) :
  key_lt y x = false -> key_lt z y = false -> key_lt z x = false.
Proof.
  destruct x as [x|], y as [y|], z as [z|]; simpl; try congruence.
  rewrite !Nat.ltb_ge. lia.
Qed.

(** ** The registry as an association list *)

Lemma bind_ok_inv {A B : Type} (m : result A) (k : A -> result B) (b : B) :
  m ≫= k = Ok b -> exists a, m = Ok a /\ k a = Ok b.
Proof. destruct m as [a|e]; simpl; [eauto|discriminate]. Qed.

Tactic Notation "inv_bind" hyp(H) "as" ident(a) ident(E) :=
  apply bind_ok_inv in H as (a & E & H).

Lemma axes_get_in (axes : list (string * nat)) (p : string) (ax : nat) :
  NoDup (keys axes) -> (p, ax) ∈ axes -> axes_get axes p = Some ax.
Proof.
  induction axes as [|[k v] r IH]; intros Hnd Hin.
  - inversion Hin.
  - apply NoDup_cons in Hnd as [Hk Hr]. simpl.
    apply elem_of_cons in Hin as [[= -> ->]|Hin].
    + now rewrite String.eqb_refl.
    + destruct (String.eqb_spec k p) as [->|Hne]; [|now apply IH].
      exfalso. apply Hk. unfold keys.
      apply list_elem_of_fmap. exists (p, ax). auto.
Qed.

Lemma in_keys_get (axes : list (string * nat)) (p : string) :
  in_keys axes p = true -> exists ax, axes_get axes p = Some ax.
Proof.
  unfold in_keys, keys. induction axes as [|[k v] r IH]; simpl.
  - discriminate.
  - intros H. apply orb_true_iff in H as [H|H].
    + apply String.eqb_eq in H as ->. rewrite String.eqb_refl. eauto.
    + destruct (String.eqb k p); eauto.
Qed.

Lemma pop_first_perm (x : string) (l r : list string) :
  pop_first x l = Ok r -> l ≡ₚ x :: r.
Proof.
  revert r. induction l as [|y l IH]; intros r; simpl; [discriminate|].
  destruct (String.eqb_spec y x) as [->|Hne].
  - intros [= <-]. reflexivity.
  - intros H. inv_bind H as r' E. injection H as <-.
    rewrite (IH r' E). apply perm_swap.
Qed.

Lemma pop_first_in_keys (axes : list (string * nat)) (x : string) :
  in_keys axes x = true -> exists r, pop_first x (keys axes) = Ok r.
Proof.
  unfold in_keys. induction (keys axes) as [|y l IH]; simpl.
  - discriminate.
  - intros H. destruct (String.eqb_spec y x) as [->|Hne]; [eauto|].
    apply orb_true_iff in H as [H|H].
    + apply String.eqb_eq in H. congruence.
    + destruct (IH H) as [r ->]. simpl. eauto.
Qed.

(** ** Grid reduction *)

(** Every way [marginalize] can succeed. *)
Lemma marginalize_inv (self self' : ContourPlot) (name : string) :
  marginalize self name = Ok self' ->
  exists lik axes red rem ext,
    likelihood self = Some lik /\
    parameter_axes self = Some axes /\
    in_keys axes name = true /\
    compute_extent self rem = Ok ext /\
    self' = with_reduction self lik red rem ext /\
    ((ndim lik < 3)%nat /\ rem = keys axes \/
     (3 <= ndim lik)%nat /\
     exists rem0, pop_first name (keys axes) = Ok rem0 /\
                  rem = sort_by key_lt (axes_get axes) rem0).
Proof.
  unfold marginalize. intros H.
  inv_bind H as lik Hlik. inv_bind H as axes Haxes. inv_bind H as u Hin.
  inv_bind H as rr Hred. destruct rr as [red rem].
  inv_bind H as ext Hext. injection H as <-.
  destruct (likelihood self) as [lik0|]; [|discriminate].
  destruct (parameter_axes self) as [axes0|]; [|discriminate].
  simpl in Hlik, Haxes. injection Hlik as ->. injection Haxes as ->.
  unfold py_assert in Hin.
  destruct (in_keys axes name) eqn:Hk; [|discriminate].
  exists lik, axes, red, rem, ext.
  repeat (split; [reflexivity || assumption|]).
  destruct (Nat.ltb_spec (ndim lik) 3) as [Hlt|Hge].
  - left. injection Hred as <- <-. auto.
  - right. split; [exact Hge|].
    inv_bind Hred as axis Haxis. inv_bind Hred as summed Hsum.
    inv_bind Hred as rem0 Hpop. injection Hred as <- <-.
    eauto.
Qed.

(** When a parameter is really taken out (three axes or more), the names
    that remain come out in ascending order of their axes, and they are
    the registered names other than the one removed. *)
Lemma marginalize_sorts_remaining (self self' : ContourPlot) (name : string)
  (lik : ndarray) (axes : list (string * nat)) :
  marginalize self name = Ok self' ->
  likelihood self = Some lik ->
  parameter_axes self = Some axes ->
  (3 <= ndim lik)%nat ->
  exists rem,
    remaining_parameters self' = Some rem /\
    axis_ascending axes rem /\
    keys axes ≡ₚ name :: rem.
Proof.
  intros H Hlik Haxes Hdim.
  apply marginalize_inv in H
    as (lik' & axes' & red & rem & ext & Hl & Ha & _ & _ & -> & Hcase).
  rewrite Hlik in Hl. injection Hl as <-.
  rewrite Haxes in Ha. injection Ha as <-.
  destruct Hcase as [[Hlt _]|[_ (rem0 & Hpop & ->)]]; [lia|].
  eexists. split; [reflexivity|]. split.
  - apply sort_by_sorted; [apply key_lt_asym|apply key_le_trans].
  - rewrite sort_by_perm. now apply pop_first_perm.
Qed.

(** [slice] sorts them in the same way when it really cuts a plane. *)
Lemma slice_sorts_remaining (self self' : ContourPlot) (name : string)
  (v : Q) (lik : ndarray) (axes : list (string * nat)) :
  slice self name v = Ok self' ->
  likelihood self = Some lik ->
  parameter_axes self = Some axes ->
  (3 <= ndim lik)%nat ->
  exists rem,
    remaining_parameters self' = Some rem /\
    axis_ascending axes rem /\
    keys axes ≡ₚ name :: rem.
Proof.
  unfold slice. intros H Hlik Haxes Hdim.
  rewrite Hlik, Haxes in H. simpl in H.
  inv_bind H as u Hin. inv_bind H as rr Hred.
  destruct rr as [[lik' red] rem].
  inv_bind H as ext Hext. injection H as <-.
  destruct (Nat.ltb_spec (ndim lik) 3) as [?|_]; [lia|].
  inv_bind Hred as axis Haxis. inv_bind Hred as mn Hmn.
  inv_bind Hred as un Hun. inv_bind Hred as idx Hidx.
  inv_bind Hred as np Hnp. inv_bind Hred as u' Hassert.
  inv_bind Hred as width Hwidth. inv_bind Hred as k Hk.
  inv_bind Hred as rem0 Hpop. injection Hred as <- <- <-.
  eexists. split; [reflexivity|]. split.
  - apply sort_by_sorted; [apply key_lt_asym|apply key_le_trans].
  - rewrite sort_by_perm. now apply pop_first_perm.
Qed.

(** C7 (the code departs from it): in the short-circuit case the
    remaining parameters are not put in axis order.  The branch for
    three axes or more sorts them; the branch for a grid that is already
    2-D hands back [parameter_axes.keys()] as the dict iterates.  With a
    dict that lists sigma8 (axis 1) before Omega_m (axis 0), both
    [marginalize] and [slice] leave [sigma8, Omega_m]. *)
Theorem short_circuit_keeps_dict_order :
  remaining_of (self ← loaded2; marginalize self "sigma8")
    = Some ["sigma8"; "Omega_m"] /\
  remaining_of (self ← loaded2; slice self "sigma8" 0)
    = Some ["sigma8"; "Omega_m"] /\
  map (axes_get axes2) ["sigma8"; "Omega_m"] = [Some 1%nat; Some 0%nat] /\
  ~ axis_ascending axes2 ["sigma8"; "Omega_m"].
Proof.
  repeat split; try (vm_compute; reflexivity).
  intros H. inversion H as [|a l _ Hall]; subst.
  inversion Hall as [|b l' Hb _]; subst. vm_compute in Hb. discriminate.
Qed.

(** C9, as stated, fails: the calibration of the parameter that is
    marginalised over is not dropped.  After [marginalize("w")] on the
    sample grid, [w] still has its minimum, maximum, pixel count and
    unit. *)
Lemma removed_calibration_is_kept :
  calibration_of loaded3 "w" = Some (-2, 0, 3%Z, (0 - -2) / inject_Z (3 - 1))
  /\
  calibration_of (self ← loaded3; marginalize self "w") "w"
  = Some (-2, 0, 3%Z, (0 - -2) / inject_Z (3 - 1)) /\
  remaining_of (self ← loaded3; marginalize self "w")
  = Some ["Omega_m"; "sigma8"].
Proof. repeat split; vm_compute; reflexivity. Qed.

(** C9 (amended): [marginalize] leaves the calibration of every parameter
    as it was, that of the parameter summed over included, and leaves the
    axis registry as it was; the parameter is taken out of the list of
    remaining parameters only (when the grid has three axes or more and
    the names are distinct). *)
Theorem marginalize_keeps_calibration (self self' : ContourPlot)
  (name : string) :
  marginalize self name = Ok self' ->
  self_min self' = self_min self /\
  self_max self' = self_max self /\
  self_npoints self' = self_npoints self /\
  self_unit self' = self_unit self /\
  parameter_axes self' = parameter_axes self /\
  forall lik axes,
    likelihood self = Some lik ->
    parameter_axes self = Some axes ->
    (3 <= ndim lik)%nat ->
    NoDup (keys axes) ->
    exists rem,
      remaining_parameters self' = Some rem /\
      (name ∉ rem) /\
      forall p, p ∈ rem <-> (p ∈ keys axes) /\ p <> name.
Proof.
  intros H. pose proof H as Hinv.
  apply marginalize_inv in Hinv
    as (lik' & axes' & red & rem & ext & _ & _ & _ & _ & -> & _).
  repeat (split; [reflexivity|]).
  intros lik axes Hlik Haxes Hdim Hnd.
  destruct (marginalize_sorts_remaining _ _ _ _ _ H Hlik Haxes Hdim)
    as (rem' & Hrem & _ & Hperm).
  exists rem'. split; [exact Hrem|].
  rewrite Hperm in Hnd. apply NoDup_cons in Hnd as [Hnot _].
  split; [exact Hnot|].
  intros p. rewrite Hperm, elem_of_cons. split.
  - intros Hp. split; [auto|]. intros ->. contradiction.
  - intros [[->|Hp] Hne]; [contradiction|exact Hp].
Qed.

Lemma marginalize_keeps_calibration_witness :
  exists self self',
    loaded3 = Ok self /\ marginalize self "w" = Ok self' /\
    self_min self' = self_min self.
Proof.
  destruct loaded3 as [self|e] eqn:E; [|vm_compute in E; discriminate].
  destruct (marginalize self "w") as [self'|e] eqn:E'.
  - exists self, self'. split; [reflexivity|]. split; [exact E'|].
    apply (marginalize_keeps_calibration self self' "w" E').
  - exfalso. revert E'. vm_compute in E. injection E as <-.
    vm_compute. discriminate.
Defined.

(** ** The 1-D level finder *)

(** C6 (the code departs from it): a tie makes the finder raise.  The
    ranks come from [rankdata], which gives tied distances their average
    rank; after truncation two tied samples share a rank and the next
    rank is held by nobody, so looking it up fails.  For the symmetric
    likelihood [1, 2, 1] at level 0.99 the two outer samples tie at
    distance zero: rank 0 is taken twice and rank 1 is missing. *)
Theorem tie_raises_IndexError :
  map (fun r => (py_int r - 1)%Z) (rankdata [0; 1; 0]) = [0; 2; 0]%Z /\
  _1d_level_values [0; 1; 2] [1; 2; 1] (99 # 100) 2 = Err IndexError /\
  _1d_level_values [0; 1; 2] [1; 2; 1] (684 # 1000) 3 = Err IndexError.
Proof. repeat split; vm_compute; reflexivity. Qed.

(** ** Out-of-range coordinates *)

Lemma wrap_index_err (n : nat) (i : Z) (e : pyerr) :
  wrap_index n i = Err e -> e = IndexError.
Proof.
  unfold wrap_index. repeat case_match; congruence.
Qed.

Lemma wrap_index_above (n : nat) (i : Z) :
  (Z.of_nat n <= i)%Z -> wrap_index n i = Err IndexError.
Proof.
  intros H. unfold wrap_index.
  destruct (Z.ltb_spec i (Z.of_nat n)); [lia|].
  destruct (Z.ltb_spec i 0); [lia|].
  now rewrite !andb_false_r.
Qed.

(** An index at or beyond the extent of its axis makes the lookup raise
    [IndexError], wherever the axis is. *)
Lemma flat_offset_above (shp : list nat) :
  forall (pix : list Z) (acc k n : nat) (i : Z),
    shp !! k = Some n -> pix !! k = Some i -> (Z.of_nat n <= i)%Z ->
    flat_offset shp pix acc = Err IndexError.
Proof.
  induction shp as [|n0 shp IH]; intros pix acc k n i Hs Hp Hi.
  - destruct k; discriminate.
  - destruct pix as [|i0 pix]; [destruct k; discriminate|].
    destruct k as [|k]; simpl in *.
    + injection Hs as ->. injection Hp as ->.
      now rewrite wrap_index_above.
    + destruct (wrap_index n0 i0) as [j|e] eqn:E; simpl.
      * eapply IH; eassumption.
      * now rewrite (wrap_index_err _ _ _ E).
Qed.

Lemma physical_to_pixel_ok (mn un v : Q) :
  ~ un == 0 -> physical_to_pixel mn un v = Ok (py_int ((v - mn) / un)).
Proof.
  intros H. unfold physical_to_pixel. now rewrite py_div_ok.
Qed.

(** The loop of [value] fills in the pixel of every parameter it visits
    and leaves the other positions as they were. *)
Lemma value_loop_spec (self : ContourPlot) (axes : list (string * nat))
  (lik : ndarray) (coordinates : list Q) :
  registry_ok self axes lik ->
  length coordinates = ndim lik ->
  forall (ps : list (string * nat)) (pix : list Z),
    Forall (fun pa => pa ∈ axes) ps ->
    NoDup (map snd ps) ->
    length pix = length coordinates ->
    exists pix',
      value_loop self axes coordinates (map fst ps) pix = Ok pix' /\
      length pix' = length pix /\
      (forall p ax mn un c,
          (p, ax) ∈ ps ->
          self_min self !! p = Some mn ->
          self_unit self !! p = Some un ->
          coordinates !! ax = Some c ->
          pix' !! ax = Some (py_int ((c - mn) / un))) /\
      (forall ax, ax ∉ map snd ps -> pix' !! ax = pix !! ax).
Proof.
  intros [Hkeys Haxes Hrange Hcal] Hlen.
  induction ps as [|[p ax] ps IH]; intros pix Hin Hnd Hpix.
  - exists pix. simpl. repeat split; auto.
    intros ? ? ? ? ? H. inversion H.
  - apply Forall_cons in Hin as [Hpa Hin].
    simpl in Hnd. apply NoDup_cons in Hnd as [Hax Hnd].
    pose proof (proj1 (Forall_forall _ _) Hrange _ Hpa) as Hlt.
    pose proof (proj1 (Forall_forall _ _) Hcal _ Hpa)
      as (mn & un & Hmn & Hun & Hnz).
    simpl in Hlt, Hmn, Hun.
    assert (Hc : is_Some (coordinates !! ax))
      by (apply lookup_lt_is_Some_2; lia).
    destruct Hc as [c Hc].
    destruct (IH (<[ax := py_int ((c - mn) / un)]> pix) Hin Hnd)
      as (pix' & Hrun & Hlen' & Hset & Hkeep).
    { now rewrite length_insert. }
    exists pix'. split; [|split; [|split]].
    + simpl. rewrite Hun, Hmn. simpl.
      unfold axes_getitem. rewrite (axes_get_in axes p ax Hkeys Hpa). simpl.
      unfold index. rewrite Hc. simpl.
      unfold getitem. rewrite Hmn, Hun. simpl.
      rewrite physical_to_pixel_ok by assumption. simpl. exact Hrun.
    + now rewrite Hlen', length_insert.
    + intros p' ax' mn' un' c' Hin' Hmn' Hun' Hc'.
      apply elem_of_cons in Hin' as [[= -> ->]|Hin'].
      * rewrite Hkeep by assumption.
        rewrite Hmn in Hmn'. rewrite Hun in Hun'. rewrite Hc in Hc'.
        injection Hmn' as <-. injection Hun' as <-. injection Hc' as <-.
        apply list_lookup_insert_eq. lia.
      * eapply Hset; eassumption.
    + intros ax' Hnot. simpl in Hnot.
      apply not_elem_of_cons in Hnot as [Hne Hnot].
      rewrite Hkeep by assumption.
      apply list_lookup_insert_ne. congruence.
Qed.

Lemma value_above_is_None (self : ContourPlot) (lik : ndarray)
  (axes : list (string * nat)) (name : string) (axis n : nat) (mn un : Q)
  (coordinates : list Q) (v : Q) :
  likelihood self = Some lik ->
  parameter_axes self = Some axes ->
  registry_ok self axes lik ->
  (name, axis) ∈ axes ->
  self_min self !! name = Some mn ->
  self_unit self !! name = Some un ->
  shape lik !! axis = Some n ->
  length coordinates = ndim lik ->
  coordinates !! axis = Some v ->
  (Z.of_nat n <= py_int ((v - mn) / un))%Z ->
  value self coordinates = Ok None.
Proof.
  intros Hlik Haxes Hreg Hin Hmn Hun Hn Hlen Hv Hpix.
  destruct (value_loop_spec self axes lik coordinates Hreg Hlen axes
              (repeat 0%Z (length coordinates)))
    as (pix & Hrun & _ & Hset & _).
  { apply Forall_forall. auto. }
  { apply Hreg. }
  { apply repeat_length. }
  unfold value. rewrite Hlik, Haxes. simpl.
  rewrite (proj2 (Nat.eqb_eq _ _) Hlen). simpl.
  unfold keys. rewrite Hrun. simpl.
  unfold arr_getitem.
  rewrite (flat_offset_above (shape lik) pix 0 axis n
             (py_int ((v - mn) / un))); auto.
  eapply Hset; eassumption.
Qed.

Lemma slice_above_raises (self : ContourPlot) (lik : ndarray)
  (axes : list (string * nat)) (name : string) (mn un : Q) (np : Z) (v : Q) :
  likelihood self = Some lik ->
  parameter_axes self = Some axes ->
  in_keys axes name = true ->
  (3 <= ndim lik)%nat ->
  self_min self !! name = Some mn ->
  self_unit self !! name = Some un ->
  self_npoints self !! name = Some np ->
  ~ un == 0 ->
  (np <= py_int ((v - mn) / un))%Z ->
  slice self name v = Err AssertionError.
Proof.
  intros Hlik Haxes Hin Hdim Hmn Hun Hnp Hnz Hpix.
  unfold slice. rewrite Hlik, Haxes. simpl. rewrite Hin. simpl.
  destruct (Nat.ltb_spec (ndim lik) 3) as [?|_]; [lia|].
  destruct (in_keys_get axes name Hin) as [ax Hax].
  unfold axes_getitem. rewrite Hax. simpl.
  unfold getitem. rewrite Hmn, Hun. simpl.
  rewrite physical_to_pixel_ok by assumption. simpl.
  rewrite Hnp. simpl.
  destruct (Z.ltb_spec (py_int ((v - mn) / un)) np); [lia|]. reflexivity.
Qed.

Lemma loaded3_is_sample3 : loaded3 = Ok sample3.
Proof. vm_compute. reflexivity. Qed.

Lemma sample3_registry_ok : registry_ok sample3 axes3 grid3.
Proof.
  split.
  - apply (bool_decide_unpack _). vm_compute. reflexivity.
  - apply (bool_decide_unpack _). vm_compute. reflexivity.
  - repeat constructor.
  - repeat constructor; simpl; eexists _, _;
      (split; [vm_compute; reflexivity|]);
      (split; [vm_compute; reflexivity|]);
      intros E; vm_compute in E; discriminate.
Qed.

(** [slice("w", 100.0)] on a range of [-2, 0]: the pixel index is
    [51 * (num_points - 1)], beyond the last one. *)
Lemma pixel_of_100 (np : Z) (un : Q) :
  (2 <= np)%Z ->
  py_div (0 - -2) (inject_Z (np - 1)) = Ok un ->
  ~ un == 0 /\ py_int ((100 - -2) / un) = (51 * (np - 1))%Z.
Proof.
  intros Hnp Hun. apply py_div_inv in Hun as [Hd ->].
  assert (Hnz : ~ (0 - -2) / inject_Z (np - 1) == 0).
  { intros E. apply (Qmult_inj_r _ _ (inject_Z (np - 1)) Hd) in E.
    rewrite Qmult_0_l in E.
    unfold Qdiv in E. rewrite <- Qmult_assoc, (Qmult_comm (/ _)) in E.
    rewrite Qmult_inv_r, Qmult_1_r in E by assumption.
    vm_compute in E. discriminate. }
  split; [exact Hnz|].
  apply py_int_of_Z. rewrite inject_Z_mult. field. exact Hd.
Qed.

(** ** C8: coordinates outside the sampled range *)

(** C8, as stated, fails: a coordinate outside the range is not always
    turned away.  On the sample grid [w] is sampled on [-2, 0] with three
    points; the coordinate 1/2 lies outside, its pixel index
    [int(2.5) = 2] is the last valid one, [value] returns the likelihood
    there and [slice] goes through. *)
Lemma coordinate_above_range_accepted :
  ~ ((-2) <= 1 # 2 /\ 1 # 2 <= 0) /\
  (self ← loaded3; value self [0; 1 # 2; 0]) = Ok (Some 5) /\
  remaining_of (self ← loaded3; slice self "w" (1 # 2))
  = Some ["Omega_m"; "sigma8"].
Proof.
  split; [|split; vm_compute; reflexivity].
  intros [_ H]. vm_compute in H. apply H. reflexivity.
Qed.

(** C8 (amended): when the pixel index [int((v - min) / unit)] of a
    coordinate reaches the number of points along its axis, the point
    query [value] returns [None] instead of raising, and [slice] on that
    axis (of a grid with three axes or more) fails with its out-of-bounds
    assertion; in particular [slice("w", 100.0)] fails so when [w] is
    calibrated on [-2, 0] with two points or more. *)
Theorem beyond_last_pixel_is_out_of_bounds :
  (forall (self : ContourPlot) (lik : ndarray) (axes : list (string * nat))
          (name : string) (axis : nat) (mn un : Q) (np : Z)
          (coordinates : list Q) (v : Q),
      likelihood self = Some lik ->
      parameter_axes self = Some axes ->
      registry_ok self axes lik ->
      (name, axis) ∈ axes ->
      self_min self !! name = Some mn ->
      self_unit self !! name = Some un ->
      self_npoints self !! name = Some np ->
      shape lik !! axis = Some (Z.to_nat np) ->
      length coordinates = ndim lik ->
      coordinates !! axis = Some v ->
      (0 <= np <= py_int ((v - mn) / un))%Z ->
      value self coordinates = Ok None /\
      ((3 <= ndim lik)%nat -> slice self name v = Err AssertionError)) /\
  (forall (self : ContourPlot) (lik : ndarray) (axes : list (string * nat))
          (np : Z) (un : Q),
      likelihood self = Some lik ->
      parameter_axes self = Some axes ->
      in_keys axes "w" = true ->
      (3 <= ndim lik)%nat ->
      self_min self !! "w" = Some (-2) ->
      self_npoints self !! "w" = Some np ->
      (2 <= np)%Z ->
      py_div (0 - -2) (inject_Z (np - 1)) = Ok un ->
      self_unit self !! "w" = Some un ->
      slice self "w" 100 = Err AssertionError).
Proof.
  split.
  - intros self lik axes name axis mn un np coordinates v
      Hlik Haxes Hreg Hin Hmn Hun Hnp Hshape Hlen Hv Hpix.
    split.
    + apply (value_above_is_None self lik axes name axis (Z.to_nat np)
               mn un coordinates v); auto.
      lia.
    + intros Hdim.
      pose proof (proj1 (Forall_forall _ _) (reg_calibrated _ _ _ Hreg)
                    _ Hin) as (mn' & un' & Hmn' & Hun' & Hnz).
      simpl in Hmn', Hun'. rewrite Hun in Hun'. injection Hun' as <-.
      apply (slice_above_raises self lik axes name mn un np v); auto;
        [|lia].
      unfold in_keys, keys. apply existsb_exists. exists name.
      split; [|apply String.eqb_refl].
      apply list_elem_of_In, list_elem_of_fmap. exists (name, axis). auto.
  - intros self lik axes np un Hlik Haxes Hin Hdim Hmn Hnp Hge Hdiv Hun.
    destruct (pixel_of_100 np un Hge Hdiv) as [Hnz Hpix].
    apply (slice_above_raises self lik axes "w" (-2) un np 100); auto.
    rewrite Hpix. lia.
Qed.

Lemma beyond_last_pixel_is_out_of_bounds_witness :
  (value sample3 [0; 1; 0] = Ok None /\
   slice sample3 "w" 1 = Err AssertionError) /\
  slice sample3 "w" 100 = Err AssertionError.
Proof.
  split.
  - destruct (proj1 beyond_last_pixel_is_out_of_bounds sample3 grid3 axes3
                "w" 1%nat (-2) ((0 - -2) / inject_Z (3 - 1)) 3%Z
                [0; 1; 0] 1) as [Hv Hs];
      try (vm_compute; reflexivity).
    + apply sample3_registry_ok.
    + apply (bool_decide_unpack _). vm_compute. reflexivity.
    + vm_compute. split; discriminate.
    + split; [exact Hv|]. apply Hs. cbn. lia.
  - apply (proj2 beyond_last_pixel_is_out_of_bounds sample3 grid3 axes3
             3%Z ((0 - -2) / inject_Z (3 - 1)));
      try (vm_compute; reflexivity); cbn; lia.
Defined.

(** ** Simpson normalisation of the 1-D marginal *)

Lemma nth_map_div (c : Q) (y : list Q) :
  forall k : nat, nth k (map (fun v => v / c) y) 0 == nth k y 0 / c.
Proof.
  induction y as [|v y IH]; intros [|k]; simpl;
    try reflexivity; try apply IH; unfold Qdiv; ring.
Qed.

Lemma Qsum_map_div (c : Q) (f g : nat -> Q) (l : list nat) :
  (forall k, f k == g k / c) ->
  Qsum (map f l) == Qsum (map g l) / c.
Proof.
  intros H. induction l as [|k l IH]; simpl.
  - unfold Qdiv. ring.
  - rewrite H, IH. unfold Qdiv. ring.
Qed.

Lemma simps_panel_div (c : Q) (y x : list Q) (k : nat) :
  simps_panel (map (fun v => v / c) y) x k == simps_panel y x k / c.
Proof.
  unfold simps_panel. cbv zeta. rewrite !nth_map_div.
  unfold Qdiv. ring.
Qed.

Lemma basic_simps_div (c : Q) (y x : list Q) (start : nat) (stop : Z) :
  basic_simps (map (fun v => v / c) y) x start stop
  == basic_simps y x start stop / c.
Proof.
  unfold basic_simps. apply Qsum_map_div. intros k. apply simps_panel_div.
Qed.

(** Simpson's rule is homogeneous in the samples. *)
Lemma simps_div (c : Q) (y x : list Q) (q : Q) :
  simps y x = Ok q ->
  exists q', simps (map (fun v => v / c) y) x = Ok q' /\ q' == q / c.
Proof.
  unfold simps. rewrite length_map.
  destruct (negb (length x =? length y)%nat); [discriminate|].
  destruct (length y mod 2 =? 0)%nat.
  - destruct (length y) as [|n]; [discriminate|].
    intros [= <-]. eexists. split; [reflexivity|].
    rewrite !basic_simps_div, !nth_map_div. unfold Qdiv.
    cbn [Nat.sub]. ring.
  - intros [= <-]. eexists. split; [reflexivity|].
    apply basic_simps_div.
Qed.

Lemma Qsum_div (c : Q) (l : list Q) :
  Qsum (map (fun v => v / c) l) == Qsum l / c.
Proof.
  induction l as [|v l IH]; simpl.
  - unfold Qdiv. ring.
  - rewrite IH. unfold Qdiv. ring.
Qed.

(** What a successful call of [marginal] has computed. *)
Lemma marginal_inv (self : ContourPlot) (name : string)
  (levels : option (list Q)) (r : marginal_result) :
  marginal self name levels = Ok r ->
  exists lik axes rem rem_axes mn mx np summed norm,
    likelihood self = Some lik /\
    parameter_axes self = Some axes /\
    pop_first name (keys axes) = Ok rem /\
    axes_of axes rem = Ok rem_axes /\
    self_min self !! name = Some mn /\
    self_max self !! name = Some mx /\
    self_npoints self !! name = Some np /\
    linspace mn mx np = Ok (parameter_range r) /\
    sum_axes lik rem_axes = Ok summed /\
    simps (data summed) (parameter_range r) = Ok norm /\
    marginal_likelihood r = map (fun v => v / norm) (data summed).
Proof.
  unfold marginal. intros H.
  inv_bind H as lik Hlik. inv_bind H as axes Haxes. inv_bind H as u Hin.
  inv_bind H as rem Hrem. inv_bind H as rem_axes Hra.
  inv_bind H as mn Hmn. inv_bind H as mx Hmx. inv_bind H as np Hnp.
  inv_bind H as range Hrange. inv_bind H as summed Hsummed.
  inv_bind H as u' Hdim. inv_bind H as norm Hnorm.
  inv_bind H as m Hm. inv_bind H as imax Himax. inv_bind H as pmax Hpmax.
  destruct (likelihood self) as [lik0|]; [|discriminate].
  destruct (parameter_axes self) as [axes0|]; [|discriminate].
  simpl in Hlik, Haxes. injection Hlik as ->. injection Haxes as ->.
  unfold getitem in Hmn, Hmx, Hnp.
  destruct (self_min self !! name) as [mn0|]; [|discriminate].
  destruct (self_max self !! name) as [mx0|]; [|discriminate].
  destruct (self_npoints self !! name) as [np0|]; [|discriminate].
  injection Hmn as ->. injection Hmx as ->. injection Hnp as ->.
  exists lik, axes, rem, rem_axes, mn, mx, np, summed, norm.
  destruct levels as [lv|].
  - inv_bind H as ext Hext. injection H as <-. simpl. auto 15.
  - injection H as <-. simpl. auto 15.
Qed.

(** C10, as stated, fails in its last clause: whether the entries of the
    marginal sum to one is not a matter of unit spacing.  For a flat
    likelihood on three points, the spacing 3/2 gives entries that sum to
    one, and the spacing 1 gives entries that sum to 3/2; the Simpson
    integral is one in both cases. *)
Lemma element_sum_not_tied_to_unit_spacing :
  let wide := self ← flat_w 3; marginal self "w" None in
  let unit_spaced := self ← flat_w 2; marginal self "w" None in
  (range_of wide = Some [0; 3 # 2; 3] /\
   element_sum_of wide = Some 1 /\ integral_of wide = Some 1) /\
  (range_of unit_spaced = Some [0; 1; 2] /\
   element_sum_of unit_spaced = Some (3 # 2) /\
   integral_of unit_spaced = Some 1).
Proof. vm_compute. repeat split. Qed.

(** C10 (amended): [marginal] sums the likelihood over the axes of all
    the other registered parameters and divides that sum by its
    Simpson-rule integral over [linspace(min, max, npoints)] of the
    parameter, not by the sum of its entries; whenever that integral is not
    zero, the Simpson integral of the returned marginal over the returned
    range is one, and its entries sum to the entry sum of the summed
    likelihood divided by the integral. *)
Theorem marginal_is_simpson_normalised (self : ContourPlot) (name : string)
  (levels : option (list Q)) (r : marginal_result) :
  marginal self name levels = Ok r ->
  exists (lik : ndarray) (axes : list (string * nat)) (others : list string)
         (other_axes : list nat) (mn mx : Q) (np : Z)
         (summed : ndarray) (norm : Q),
    (likelihood self = Some lik /\
     parameter_axes self = Some axes /\
     self_min self !! name = Some mn /\
     self_max self !! name = Some mx /\
     self_npoints self !! name = Some np) /\
    (pop_first name (keys axes) = Ok others /\
     axes_of axes others = Ok other_axes /\
     sum_axes lik other_axes = Ok summed) /\
    linspace mn mx np = Ok (parameter_range r) /\
    simps (data summed) (parameter_range r) = Ok norm /\
    marginal_likelihood r = map (fun v => v / norm) (data summed) /\
    (~ norm == 0 ->
     Qsum (marginal_likelihood r) == arr_sum summed / norm /\
     exists q, simps (marginal_likelihood r) (parameter_range r) = Ok q /\
               q == 1).
Proof.
  intros H.
  apply marginal_inv in H
    as (lik & axes & rem & rem_axes & mn & mx & np & summed & norm
        & Hlik & Haxes & Hrem & Hra & Hmn & Hmx & Hnp & Hrange & Hsum
        & Hnorm & Hml).
  exists lik, axes, rem, rem_axes, mn, mx, np, summed, norm.
  split; [auto|]. split; [auto|].
  split; [exact Hrange|]. split; [exact Hnorm|]. split; [exact Hml|].
  rewrite Hml. intros Hnz. split; [apply Qsum_div|].
  destruct (simps_div norm _ _ _ Hnorm) as (q & Hq & Heq).
  exists q. split; [exact Hq|]. rewrite Heq. now field.
Qed.

Lemma marginal_is_simpson_normalised_witness :
  exists r summed norm,
    marginal sample3 "w" None = Ok r /\
    sum_axes grid3 [0; 2]%nat = Ok summed /\
    linspace (-2) 0 3 = Ok (parameter_range r) /\
    simps (data summed) (parameter_range r) = Ok norm /\
    marginal_likelihood r = map (fun v => v / norm) (data summed).
Proof.
  destruct (marginal sample3 "w" None) as [r|e] eqn:E;
    [|vm_compute in E; discriminate].
  destruct (marginal_is_simpson_normalised sample3 "w" None r E)
    as (lik & axes & others & other_axes & mn & mx & np & summed & norm
        & (Hlik & Haxes & Hmn & Hmx & Hnp) & (Hrem & Hra & Hsum)
        & Hrange & Hnorm & Hml & _).
  cbn in Hlik, Haxes. injection Hlik as <-. injection Haxes as <-.
  vm_compute in Hmn, Hmx, Hnp.
  injection Hmn as <-. injection Hmx as <-. injection Hnp as <-.
  vm_compute in Hrem. injection Hrem as <-.
  vm_compute in Hra. injection Hra as <-.
  exists r, summed, norm. auto.
Defined.

(* ------------------------------------------------------------------ *)
(** * Further properties of the module                                 *)
(* ------------------------------------------------------------------ *)

(** ** Calibration from an options file *)

Lemma axes_get_keys (axes : list (string * nat)) (p : string) :
  p ∈ keys axes -> exists ax, axes_get axes p = Some ax.
Proof.
  intros H. apply in_keys_get. unfold in_keys.
  apply existsb_exists. exists p. split; [|apply String.eqb_refl].
  now apply list_elem_of_In.
Qed.

Lemma py_assert_ok (b : bool) (u : unit) : py_assert b = Ok u -> b = true.
Proof. destruct b; [reflexivity|discriminate]. Qed.

(** One pass of the loop of [getUnitsFromOptions]. *)
Lemma getUnits_loop_cons (options : string -> option (Q * Q * Z))
  (axes : list (string * nat)) (lik : ndarray) (p : string)
  (rest : list string) (self self' : ContourPlot) :
  getUnits_loop options axes lik (p :: rest) self = Ok self' ->
  exists mn mx np axis,
    options p = Some (mn, mx, np) /\
    axes_get axes p = Some axis /\
    shape lik !! axis = Some (Z.to_nat np) /\
    (0 <= np)%Z /\ np <> 1%Z /\
    getUnits_loop options axes lik rest
      (with_units self (<[p := mn]> (self_min self))
         (<[p := mx]> (self_max self)) (<[p := np]> (self_npoints self))
         (<[p := (mx - mn) / inject_Z (np - 1)]> (self_unit self)))
    = Ok self'.
Proof.
  simpl. intros H.
  inv_bind H as t Ht. destruct t as [[mn mx] np].
  inv_bind H as axis Haxis. inv_bind H as n Hn.
  inv_bind H as u Hassert. inv_bind H as un Hun.
  destruct (options p) as [t|]; [|discriminate]. injection Ht as ->.
  unfold axes_getitem in Haxis.
  destruct (axes_get axes p) as [ax|]; [|discriminate].
  injection Haxis as ->.
  unfold index in Hn. destruct (shape lik !! axis) as [n0|] eqn:Hs;
    [|discriminate].
  injection Hn as ->.
  apply py_assert_ok, Z.eqb_eq in Hassert. subst np.
  apply py_div_inv in Hun as [Hnz ->].
  exists mn, mx, (Z.of_nat n), axis.
  rewrite Nat2Z.id. repeat (split; [reflexivity || lia || auto|]).
  - intros E. apply Hnz. rewrite E. reflexivity.
  - exact H.
Qed.

Lemma getUnits_loop_spec (options : string -> option (Q * Q * Z))
  (axes : list (string * nat)) (lik : ndarray) (ps : list string) :
  forall self self' : ContourPlot,
    getUnits_loop options axes lik ps self = Ok self' ->
    Forall (option_fits options axes lik) ps /\
    (forall p, p ∈ ps -> calibrated_by options self' p) /\
    (forall p, calibrated_by options self p ->
               calibrated_by options self' p) /\
    (forall q, q ∉ ps -> same_calibration self self' q) /\
    likelihood self' = likelihood self /\
    parameter_axes self' = parameter_axes self.
Proof.
  induction ps as [|p rest IH]; intros self self' H.
  - injection H as <-. repeat split; auto.
    intros p Hp. inversion Hp.
  - apply getUnits_loop_cons in H
      as (mn & mx & np & axis & Hopt & Hax & Hshape & Hnp & Hne & H).
    destruct (IH _ _ H) as (Hfits & Hcal & Hkeep & Hframe & Hlik & Haxes).
    assert (Hnow : calibrated_by options
                     (with_units self (<[p := mn]> (self_min self))
                        (<[p := mx]> (self_max self))
                        (<[p := np]> (self_npoints self))
                        (<[p := (mx - mn) / inject_Z (np - 1)]>
                           (self_unit self))) p).
    { exists mn, mx, np. simpl. rewrite !lookup_insert_eq. auto. }
    split; [|split; [|split; [|split; [|split]]]].
    + constructor; [|exact Hfits].
      exists mn, mx, np, axis. auto.
    + intros p' Hp'. apply elem_of_cons in Hp' as [->|Hp']; auto.
    + intros p' (mn' & mx' & np' & Ho & H1 & H2 & H3 & H4).
      apply Hkeep. destruct (decide (p' = p)) as [->|Hneq]; [exact Hnow|].
      exists mn', mx', np'. simpl.
      rewrite !lookup_insert_ne by congruence. auto.
    + intros q Hq. apply not_elem_of_cons in Hq as [Hne' Hq].
      destruct (Hframe q Hq) as (F1 & F2 & F3 & F4).
      unfold with_units in F1, F2, F3, F4.
      cbn [self_min self_max self_npoints self_unit] in F1, F2, F3, F4.
      rewrite lookup_insert_ne in F1 by congruence.
      rewrite lookup_insert_ne in F2 by congruence.
      rewrite lookup_insert_ne in F3 by congruence.
      rewrite lookup_insert_ne in F4 by congruence.
      unfold same_calibration. auto.
    + exact Hlik.
    + exact Haxes.
Qed.

Lemma getUnits_loop_total (options : string -> option (Q * Q * Z))
  (axes : list (string * nat)) (lik : ndarray) (ps : list string) :
  Forall (option_fits options axes lik) ps ->
  forall self : ContourPlot,
    exists self', getUnits_loop options axes lik ps self = Ok self'.
Proof.
  induction 1 as [|p rest (mn & mx & np & axis & Ho & Ha & Hs & Hnp & Hne)
                    _ IH]; intros self.
  - exists self. reflexivity.
  - simpl. rewrite Ho. simpl. unfold axes_getitem. rewrite Ha. simpl.
    unfold index. rewrite Hs. simpl.
    rewrite (proj2 (Z.eqb_eq np (Z.of_nat (Z.to_nat np)))) by lia. simpl.
    rewrite py_div_ok.
    + simpl. apply IH.
    + unfold Qeq, inject_Z. simpl. lia.
Qed.

(** X1: [getUnitsFromOptions] succeeds exactly when, for every registered
    parameter, the options file has a section whose [num_points] is the
    extent of the parameter's axis and is not one (a single point makes
    the unit a division by zero). *)
Theorem getUnitsFromOptions_succeeds_iff (self : ContourPlot)
  (axes : list (string * nat)) (lik : ndarray)
  (options : string -> option (Q * Q * Z)) :
  parameter_axes self = Some axes ->
  likelihood self = Some lik ->
  (exists self', getUnitsFromOptions self options = Ok self') <->
  Forall (option_fits options axes lik) (keys axes).
Proof.
  intros Haxes Hlik. unfold getUnitsFromOptions. rewrite Haxes, Hlik. simpl.
  split.
  - intros [self' H]. now apply getUnits_loop_spec in H.
  - intros H. now apply getUnits_loop_total.
Qed.

(** X2: after [getUnitsFromOptions], every registered parameter carries
    the minimum, maximum and pixel count of its section and the unit
    [(max - min) / (num_points - 1)]; parameters that are not registered
    keep whatever calibration they had, and the grid and the registry
    are untouched. *)
Theorem getUnitsFromOptions_calibrates (self self' : ContourPlot)
  (axes : list (string * nat))
  (options : string -> option (Q * Q * Z)) :
  parameter_axes self = Some axes ->
  getUnitsFromOptions self options = Ok self' ->
  (forall p, p ∈ keys axes -> calibrated_by options self' p) /\
  (forall q, q ∉ keys axes -> same_calibration self self' q) /\
  likelihood self' = likelihood self /\
  parameter_axes self' = parameter_axes self.
Proof.
  intros Haxes H. unfold getUnitsFromOptions in H. rewrite Haxes in H.
  simpl in H. inv_bind H as lik Hlik.
  apply getUnits_loop_spec in H as (_ & Hcal & _ & Hframe & Hl & Ha).
  auto.
Qed.

(** ** Loading and calibrating establish the registry invariants *)

Lemma unit_nonzero (mn mx : Q) (np : Z) :
  ~ mx == mn -> np <> 1%Z -> ~ (mx - mn) / inject_Z (np - 1) == 0.
Proof.
  intros Hne Hnp E.
  assert (Hd : ~ inject_Z (np - 1) == 0).
  { unfold Qeq, inject_Z. simpl. lia. }
  apply Hne.
  assert (E' : mx - mn == 0).
  { rewrite <- (Qmult_div_r (mx - mn) (inject_Z (np - 1))) by assumption.
    rewrite E. ring. }
  rewrite <- (Qplus_0_l mn), <- E'. ring.
Qed.

(** Distinct axes, all inside the grid, as many as the grid has: every
    axis is taken. *)
Lemma distinct_axes_cover (axes : list (string * nat)) (lik : ndarray) :
  NoDup (map snd axes) ->
  Forall (fun pa => (snd pa < ndim lik)%nat) axes ->
  length axes = ndim lik ->
  covers axes lik.
Proof.
  intros Hnd Hrange Hlen ax Hax.
  assert (Hperm : map snd axes ≡ₚ seq 0 (ndim lik)).
  { apply submseteq_length_Permutation.
    - apply NoDup_submseteq; [exact Hnd|].
      intros x Hx. apply list_elem_of_fmap in Hx as (pa & -> & Hpa).
      apply elem_of_seq.
      pose proof (proj1 (Forall_forall _ _) Hrange _ Hpa) as Hlt.
      simpl in Hlt. lia.
    - rewrite length_seq, length_map. lia. }
  assert (Hin : ax ∈ map snd axes).
  { rewrite Hperm. apply elem_of_seq. lia. }
  apply list_elem_of_fmap in Hin as ([p ax'] & -> & Hpa).
  exists p. exact Hpa.
Qed.

(** X3: loading a grid and reading its units from an options file whose
    sections all have [max <> min] yields an object on which the registry
    invariants hold, provided the names and the axes of the registry are
    distinct: every axis of the grid is registered, lies inside the grid,
    and has a minimum and a non-zero unit. *)
Theorem load_establishes_registry (arr : ndarray)
  (axes : list (string * nat)) (options : string -> option (Q * Q * Z))
  (self : ContourPlot) :
  load arr axes options = Ok self ->
  NoDup (keys axes) ->
  NoDup (map snd axes) ->
  (forall p mn mx np, options p = Some (mn, mx, np) -> ~ mx == mn) ->
  likelihood self = Some arr /\
  parameter_axes self = Some axes /\
  registry_ok self axes arr /\
  covers axes arr.
Proof.
  unfold load. intros H Hkeys Hax Hopt.
  inv_bind H as self0 H0.
  unfold getLikelihood in H0. inv_bind H0 as u Hlen. injection H0 as <-.
  apply py_assert_ok, Nat.eqb_eq in Hlen.
  unfold getUnitsFromOptions in H. simpl in H.
  apply getUnits_loop_spec in H as (Hfits & Hcal & _ & _ & Hl & Ha).
  simpl in Hl, Ha.
  assert (Hrange : Forall (fun pa => (snd pa < ndim arr)%nat) axes).
  { apply Forall_forall. intros [p ax] Hpa. simpl.
    assert (Hp : p ∈ keys axes).
    { apply list_elem_of_fmap. exists (p, ax). auto. }
    pose proof (proj1 (Forall_forall _ _) Hfits _ Hp)
      as (mn & mx & np & axis & _ & Hget & Hshape & _).
    rewrite (axes_get_in axes p ax Hkeys Hpa) in Hget.
    injection Hget as <-. now apply lookup_lt_Some in Hshape. }
  repeat split; auto.
  - apply Forall_forall. intros [p ax] Hpa. simpl.
    assert (Hp : p ∈ keys axes).
    { apply list_elem_of_fmap. exists (p, ax). auto. }
    destruct (Hcal p Hp) as (mn & mx & np & Ho & Hmn & _ & _ & Hun).
    pose proof (proj1 (Forall_forall _ _) Hfits _ Hp)
      as (mn' & mx' & np' & axis & Ho' & _ & _ & _ & Hne).
    rewrite Ho in Ho'. injection Ho' as <- <- <-.
    exists mn, ((mx - mn) / inject_Z (np - 1)).
    split; [exact Hmn|]. split; [exact Hun|].
    apply unit_nonzero; eauto.
  - apply distinct_axes_cover; auto.
    unfold keys in Hlen. rewrite length_map in Hlen. exact Hlen.
Qed.
(** ** Point queries *)

(** X4: [value] reads the grid at the truncated pixel of every
    coordinate.  On a calibrated grid, the pixel tuple that holds, along
    each axis, [int((coordinate - min) / unit)] for the parameter
    registered on that axis is the one looked up, in whatever order the
    registry lists the parameters: the result is the entry there when
    every index is within its axis, negative indices counting from the
    end, and [None] when one is not. *)
Theorem value_at_computed_pixels (self : ContourPlot) (lik : ndarray)
  (axes : list (string * nat)) (pixels : list Z) (coordinates : list Q) :
  likelihood self = Some lik ->
  parameter_axes self = Some axes ->
  registry_ok self axes lik ->
  covers axes lik ->
  length pixels = ndim lik ->
  length coordinates = ndim lik ->
  (forall p ax mn un c,
      (p, ax) ∈ axes ->
      self_min self !! p = Some mn ->
      self_unit self !! p = Some un ->
      coordinates !! ax = Some c ->
      pixels !! ax = Some (py_int ((c - mn) / un))) ->
  value self coordinates
  = match arr_getitem lik pixels with
    | Ok v => Ok (Some v)
    | Err _ => Ok None
    end.
Proof.
  intros Hlik Haxes Hreg Hcov Hpl Hcl Hpix.
  destruct (value_loop_spec self axes lik coordinates Hreg Hcl axes
              (repeat 0%Z (length coordinates)))
    as (pix & Hrun & Hlen & Hset & _).
  { apply Forall_forall. auto. }
  { apply Hreg. }
  { apply repeat_length. }
  rewrite repeat_length in Hlen.
  assert (Heq : pix = pixels).
  { apply list_eq. intros ax.
    destruct (Nat.lt_ge_cases ax (ndim lik)) as [Hlt|Hge].
    - destruct (Hcov ax Hlt) as [p Hpa].
      pose proof (proj1 (Forall_forall _ _) (reg_calibrated _ _ _ Hreg)
                    _ Hpa) as (mn & un & Hmn & Hun & Hnz).
      simpl in Hmn, Hun.
      destruct (lookup_lt_is_Some_2 coordinates ax) as [c Hc]; [lia|].
      rewrite (Hset p ax mn un c Hpa Hmn Hun Hc).
      symmetry. now apply (Hpix p ax mn un c).
    - rewrite !lookup_ge_None_2 by lia. reflexivity. }
  subst pix.
  unfold value. rewrite Hlik, Haxes. simpl.
  rewrite (proj2 (Nat.eqb_eq _ _) Hcl). simpl.
  unfold keys. rewrite Hrun. simpl.
  unfold arr_getitem.
  destruct (flat_offset (shape lik) pixels 0) as [off|e] eqn:Hoff; simpl.
  - unfold index. destruct (data lik !! off); reflexivity.
  - assert (e = IndexError) as ->; [|reflexivity].
    clear -Hoff. revert Hoff. generalize 0%nat. generalize (shape lik).
    intros shp. revert pixels.
    induction shp as [|n shp IH]; intros [|i pixels] acc; simpl;
      try congruence.
    destruct (wrap_index n i) as [j|e'] eqn:E; simpl.
    + apply IH.
    + intros [= <-]. now apply wrap_index_err in E.
Qed.

(** ** Units set by hand, and grids with a single axis *)

Lemma axes_of_keys (axes : list (string * nat)) (ps : list string) :
  Forall (fun p => p ∈ keys axes) ps ->
  exists l, axes_of axes ps = Ok l.
Proof.
  induction 1 as [|p ps Hp _ [l IH]]; simpl; [eauto|].
  destruct (axes_get_keys axes p Hp) as [ax Hax].
  unfold axes_getitem. rewrite Hax. simpl. rewrite IH. simpl. eauto.
Qed.

Lemma in_keys_elem (axes : list (string * nat)) (p : string) :
  in_keys axes p = true -> p ∈ keys axes.
Proof.
  unfold in_keys. intros H. apply existsb_exists in H as (q & Hq & E).
  apply String.eqb_eq in E as ->. now apply list_elem_of_In.
Qed.

(** X5: [setUnits] records a minimum, a maximum and a unit but no pixel
    count.  On an object whose units were only set by hand, [marginal]
    raises [KeyError], and so does [slice] on a grid with three axes or
    more (with a non-zero unit), whatever the coordinate. *)
Theorem setUnits_alone_leaves_no_pixel_count (self self' : ContourPlot)
  (lik : ndarray) (name : string) (mn mx un : Q) :
  setUnits self name mn mx un = Ok self' ->
  likelihood self = Some lik ->
  self_npoints self !! name = None ->
  (forall levels, marginal self' name levels = Err KeyError) /\
  (~ un == 0 -> (3 <= ndim lik)%nat ->
   forall v, slice self' name v = Err KeyError).
Proof.
  unfold setUnits. intros H Hlik Hnp.
  inv_bind H as axes Haxes. inv_bind H as u Hin. injection H as <-.
  destruct (parameter_axes self) as [axes0|] eqn:Ha; [|discriminate].
  injection Haxes as ->. apply py_assert_ok in Hin.
  split.
  - intros levels. unfold marginal. simpl. rewrite Hlik, Ha. simpl.
    rewrite Hin. simpl.
    destruct (pop_first_in_keys axes name Hin) as [rem Hrem].
    rewrite Hrem. simpl.
    destruct (axes_of_keys axes rem) as [l Hl].
    { apply Forall_forall. intros p Hp.
      apply pop_first_perm in Hrem. rewrite Hrem. now right. }
    rewrite Hl. simpl. unfold getitem. rewrite !lookup_insert_eq. simpl.
    rewrite Hnp. reflexivity.
  - intros Hnz Hdim v. unfold slice. simpl. rewrite Hlik, Ha. simpl.
    rewrite Hin. simpl.
    destruct (Nat.ltb_spec (ndim lik) 3) as [?|_]; [lia|].
    destruct (in_keys_get axes name Hin) as [ax Hax].
    unfold axes_getitem. rewrite Hax. simpl.
    unfold getitem. rewrite !lookup_insert_eq. simpl.
    rewrite physical_to_pixel_ok by assumption. simpl.
    rewrite Hnp. reflexivity.
Qed.

(** X6: a grid with a single axis cannot be reduced.  Both [marginalize]
    and [slice] need two remaining parameters for the extent; with one
    registered and calibrated parameter they raise [IndexError]. *)
Theorem no_reduction_of_1d_grid (self : ContourPlot) (lik : ndarray)
  (p : string) (ax : nat) (mn mx : Q) :
  likelihood self = Some lik ->
  parameter_axes self = Some [(p, ax)] ->
  ndim lik = 1%nat ->
  self_min self !! p = Some mn ->
  self_max self !! p = Some mx ->
  marginalize self p = Err IndexError /\
  forall v, slice self p v = Err IndexError.
Proof.
  intros Hlik Haxes Hdim Hmn Hmx.
  unfold marginalize, slice. rewrite Hlik, Haxes. simpl.
  unfold in_keys. simpl. rewrite String.eqb_refl. simpl.
  rewrite Hdim. simpl.
  unfold compute_extent, getitem. simpl. rewrite Hmn, Hmx. simpl.
  auto.
Qed.

(** ** Summing over an axis keeps the total *)

Lemma Qsum_app (l k : list Q) : Qsum (l ++ k) == Qsum l + Qsum k.
Proof.
  induction l as [|x l IH]; simpl; [ring|]. rewrite IH. ring.
Qed.

Lemma Qsum_map_ext (f g : nat -> Q) (l : list nat) :
  (forall k, k ∈ l -> f k == g k) ->
  Qsum (map f l) == Qsum (map g l).
Proof.
  induction l as [|k l IH]; intros H; simpl; [reflexivity|].
  rewrite (H k) by now left. rewrite IH; [reflexivity|].
  intros k' Hk'. apply H. now right.
Qed.

Lemma qsum_n_ext (n : nat) (f g : nat -> Q) :
  (forall k, (k < n)%nat -> f k == g k) -> qsum_n n f == qsum_n n g.
Proof.
  intros H. apply Qsum_map_ext. intros k Hk.
  apply elem_of_seq in Hk. apply H. lia.
Qed.

Lemma Qsum_seq_shift (f : nat -> Q) (s n : nat) :
  Qsum (map f (seq s n)) == qsum_n n (fun k => f (s + k)%nat).
Proof.
  unfold qsum_n. revert s. induction n as [|n IH]; intros s; simpl.
  - reflexivity.
  - rewrite Nat.add_0_r. apply Qplus_comp; [reflexivity|].
    rewrite IH. rewrite <- (seq_shift n 0), map_map.
    apply Qsum_map_ext. intros k _. now rewrite Nat.add_succ_r.
Qed.

Lemma qsum_n_add (a b : nat) (f : nat -> Q) :
  qsum_n (a + b) f == qsum_n a f + qsum_n b (fun k => f (a + k)%nat).
Proof.
  unfold qsum_n at 1 2. rewrite seq_app, map_app, Qsum_app.
  apply Qplus_comp; [reflexivity|]. apply Qsum_seq_shift.
Qed.

Lemma qsum_n_1 (f : nat -> Q) : qsum_n 1 f == f 0%nat.
Proof. unfold qsum_n. simpl. ring. Qed.

(** A sum over [a * b] positions, block by block. *)
Lemma qsum_n_mul (a b : nat) (f : nat -> Q) :
  qsum_n (a * b) f
  == qsum_n a (fun o => qsum_n b (fun k => f (o * b + k)%nat)).
Proof.
  induction a as [|a IH].
  - reflexivity.
  - replace (S a * b)%nat with (a * b + b)%nat by lia.
    rewrite qsum_n_add, IH.
    replace (S a) with (a + 1)%nat by lia.
    rewrite (qsum_n_add a 1). apply Qplus_comp; [reflexivity|].
    rewrite qsum_n_1, Nat.add_0_r. reflexivity.
Qed.

Lemma qsum_n_plus (n : nat) (f g : nat -> Q) :
  qsum_n n (fun k => f k + g k) == qsum_n n f + qsum_n n g.
Proof.
  unfold qsum_n. induction (seq 0 n) as [|k l IH]; simpl; [ring|].
  rewrite IH. ring.
Qed.

Lemma qsum_n_zero (n : nat) : qsum_n n (fun _ => 0) == 0.
Proof.
  unfold qsum_n. induction (seq 0 n) as [|k l IH]; simpl; [reflexivity|].
  rewrite IH. ring.
Qed.

(** The order of two summations does not matter. *)
Lemma qsum_n_swap (a b : nat) (g : nat -> nat -> Q) :
  qsum_n a (fun i => qsum_n b (fun j => g i j))
  == qsum_n b (fun j => qsum_n a (fun i => g i j)).
Proof.
  induction a as [|a IH].
  - rewrite (qsum_n_ext b _ (fun _ => 0)); [now rewrite qsum_n_zero|].
    intros j _. reflexivity.
  - replace (S a) with (a + 1)%nat by lia.
    rewrite qsum_n_add, IH, qsum_n_1.
    rewrite <- (qsum_n_plus b (fun j => qsum_n a (fun i => g i j))
                  (fun j => g (a + 0)%nat j)).
    apply qsum_n_ext. intros j _.
    rewrite qsum_n_add. apply Qplus_comp; [reflexivity|].
    rewrite qsum_n_1. reflexivity.
Qed.

Lemma Qsum_nth (l : list Q) :
  Qsum l == qsum_n (length l) (fun k => nth k l 0).
Proof.
  induction l as [|x l IH]; simpl; [reflexivity|].
  replace (S (length l)) with (1 + length l)%nat by lia.
  rewrite qsum_n_add, qsum_n_1. simpl. rewrite IH. reflexivity.
Qed.

Lemma prod_nat_app (l k : list nat) :
  prod_nat (l ++ k) = (prod_nat l * prod_nat k)%nat.
Proof.
  induction l as [|x l IH]; simpl; [lia|]. rewrite IH. lia.
Qed.

Lemma prod_nat_split (shp : list nat) (axis n : nat) :
  shp !! axis = Some n ->
  prod_nat shp
  = (prod_nat (firstn axis shp) * (n * prod_nat (skipn (S axis) shp)))%nat.
Proof.
  intros H.
  rewrite <- (take_drop_middle shp axis n H) at 1.
  rewrite prod_nat_app. reflexivity.
Qed.

(** [sum(axis)] keeps the total of a well-formed array. *)
Lemma sum_axis_total (a b : ndarray) (axis : nat) :
  length (data a) = prod_nat (shape a) ->
  sum_axis a axis = Ok b ->
  arr_sum b == arr_sum a.
Proof.
  intros Hwf. unfold sum_axis.
  destruct (shape a !! axis) as [n|] eqn:Hn; [|discriminate].
  intros [= <-]. unfold arr_sum. simpl.
  set (inner := inner_of a axis). set (outer := outer_of a axis).
  rewrite (Qsum_nth (data a)), Hwf, (prod_nat_split _ _ _ Hn).
  fold (outer_of a axis) (inner_of a axis). fold inner outer.
  change (Qsum (map ?f (seq 0 ?m))) with (qsum_n m f).
  rewrite !qsum_n_mul.
  apply qsum_n_ext. intros o _.
  transitivity
    (qsum_n inner (fun i =>
       qsum_n n (fun j => nth ((o * n + j) * inner + i) (data a) 0))).
  - apply qsum_n_ext. intros i Hi.
    assert (Hpos : inner <> 0%nat) by lia.
    rewrite Nat.div_add_l, Nat.div_small, Nat.add_0_r by lia.
    rewrite Nat.add_comm, Nat.Div0.mod_add, Nat.mod_small by lia.
    reflexivity.
  - rewrite qsum_n_swap, (qsum_n_mul n inner).
    apply qsum_n_ext. intros j _.
    apply qsum_n_ext. intros i _.
    replace (o * (n * inner) + (j * inner + i))%nat
      with ((o * n + j) * inner + i)%nat by lia.
    reflexivity.
Qed.

(** ** What the reductions leave on the object *)

Lemma Qsum_normalised (l : list Q) :
  ~ Qsum l == 0 -> Qsum (map (fun v => v / Qsum l) l) == 1.
Proof. intros H. rewrite Qsum_div. now field. Qed.

Lemma sum_axis_ndim (a b : ndarray) (axis : nat) :
  sum_axis a axis = Ok b -> ndim b = pred (ndim a).
Proof.
  unfold sum_axis. destruct (shape a !! axis) as [n|] eqn:Hn; [|discriminate].
  intros [= <-]. unfold ndim. simpl.
  apply lookup_lt_Some in Hn.
  rewrite length_app, length_take, length_drop. lia.
Qed.

(** The reduced likelihood [marginalize] leaves. *)
Lemma marginalize_reduced (self self' : ContourPlot) (name : string)
  (lik : ndarray) :
  marginalize self name = Ok self' ->
  likelihood self = Some lik ->
  exists pre,
    reduced_likelihood self' = Some (arr_div pre (arr_sum pre)) /\
    likelihood self' = Some lik /\
    ((ndim lik < 3)%nat /\ pre = lik \/
     (3 <= ndim lik)%nat /\ exists axis, sum_axis lik axis = Ok pre).
Proof.
  unfold marginalize. intros H Hlik. rewrite Hlik in H. simpl in H.
  inv_bind H as axes Haxes. inv_bind H as u Hin.
  inv_bind H as rr Hred. destruct rr as [red rem].
  inv_bind H as ext Hext. injection H as <-. simpl.
  destruct (Nat.ltb_spec (ndim lik) 3) as [Hlt|Hge].
  - injection Hred as <- <-. exists lik. auto.
  - inv_bind Hred as axis Haxis. inv_bind Hred as summed Hsum.
    inv_bind Hred as rem0 Hpop. injection Hred as <- <-.
    exists summed. eauto 6.
Qed.

(** The reduced likelihood of a well-formed grid has total one. *)
Lemma marginalize_reduced_total (self self' : ContourPlot) (name : string)
  (lik : ndarray) :
  marginalize self name = Ok self' ->
  likelihood self = Some lik ->
  length (data lik) = prod_nat (shape lik) ->
  ~ arr_sum lik == 0 ->
  exists red,
    reduced_likelihood self' = Some red /\
    arr_sum red == 1 /\
    ndim red = (if (ndim lik <? 3)%nat then ndim lik else pred (ndim lik)) /\
    likelihood self' = Some lik.
Proof.
  intros H Hlik Hwf Hnz.
  destruct (marginalize_reduced _ _ _ _ H Hlik) as (pre & Hred & Hl & Hcase).
  exists (arr_div pre (arr_sum pre)). split; [exact Hred|].
  destruct Hcase as [[Hlt ->]|[Hge [axis Hsum]]].
  - split; [now apply Qsum_normalised|].
    destruct (Nat.ltb_spec (ndim lik) 3); [auto|lia].
  - pose proof (sum_axis_total _ _ _ Hwf Hsum) as Htot.
    split; [apply Qsum_normalised; unfold arr_sum in *; now rewrite Htot|].
    destruct (Nat.ltb_spec (ndim lik) 3); [lia|].
    split; [|exact Hl]. unfold ndim at 1. simpl.
    apply (sum_axis_ndim _ _ _ Hsum).
Qed.

(** X7: [marginalize] conserves probability and normalises it.  On a
    well-formed grid whose entries do not sum to zero, the reduced
    likelihood sums to one; it has the axes of the grid when the grid has
    fewer than three, and one axis less otherwise.  The stored grid itself
    is left as it was. *)
Theorem marginalize_normalises (self self' : ContourPlot) (name : string)
  (lik : ndarray) :
  marginalize self name = Ok self' ->
  likelihood self = Some lik ->
  length (data lik) = prod_nat (shape lik) ->
  ~ arr_sum lik == 0 ->
  exists red,
    reduced_likelihood self' = Some red /\
    arr_sum red == 1 /\
    ndim red = (if (ndim lik <? 3)%nat then ndim lik else pred (ndim lik)) /\
    likelihood self' = Some lik.
Proof. apply marginalize_reduced_total. Qed.

(** X8: the level search after a marginalisation.  With a normalisation
    check that depends on the value of the sum only, accepts one and
    rejects zero, [getLikelihoodValues] goes through after [marginalize]
    on a well-formed grid of two or three axes with a non-zero total, and
    fails its 2-D assertion when the grid has any other number of axes. *)
Theorem level_search_after_marginalize (approx_equal_one : Q -> bool)
  (chi2_seed : Q -> Q) (self self' : ContourPlot) (name : string)
  (lik : ndarray) (levels : list Q) (epsilon : Q) (max_iterations : Z) :
  (forall x y, x == y -> approx_equal_one x = approx_equal_one y) ->
  approx_equal_one 1 = true ->
  approx_equal_one 0 = false ->
  marginalize self name = Ok self' ->
  likelihood self = Some lik ->
  length (data lik) = prod_nat (shape lik) ->
  ~ arr_sum lik == 0 ->
  let r := getLikelihoodValues approx_equal_one chi2_seed self' levels
             epsilon max_iterations in
  (ndim lik = 2%nat \/ ndim lik = 3%nat -> exists out, r = Ok out) /\
  (ndim lik <> 2%nat -> ndim lik <> 3%nat -> r = Err AssertionError).
Proof.
  intros Hproper H1 H0 H Hlik Hwf Hnz r. subst r.
  destruct (marginalize_reduced_total _ _ _ _ H Hlik Hwf Hnz)
    as (red & Hred & Hsum & Hdim & _).
  unfold getLikelihoodValues. rewrite Hred. simpl.
  assert (Happrox : approx_equal_one (arr_sum red) = true).
  { now rewrite (Hproper _ _ Hsum). }
  split.
  - intros Hd.
    assert (Hr : ndim red = 2%nat).
    { rewrite Hdim. destruct Hd as [-> | ->]; reflexivity. }
    rewrite Hr. simpl. rewrite Happrox. simpl.
    destruct (arr_max_ok approx_equal_one red H0 Happrox) as [m Hm].
    rewrite Hm. simpl.
    destruct (levels_loop _ _ _ _ _ _ _ _ _ _) as [vs ps]. eauto.
  - intros Hn2 Hn3.
    assert (Hr : (ndim red =? 2)%nat = false).
    { rewrite Hdim. apply Nat.eqb_neq.
      destruct (Nat.ltb_spec (ndim lik) 3); lia. }
    rewrite Hr. reflexivity.
Qed.




(** ** Coordinates below the range *)

(** X10: [slice] does not turn away a coordinate below the range.  When
    the pixel index [i] of the coordinate is negative, down to
    [-num_points], the plane taken is the one a coordinate of pixel index
    [i + num_points] selects, and the whole call has the same outcome. *)
Theorem slice_wraps_below_range (self : ContourPlot) (name : string)
  (mn un : Q) (np i : Z) (v v' : Q) :
  self_min self !! name = Some mn ->
  self_unit self !! name = Some un ->
  self_npoints self !! name = Some np ->
  physical_to_pixel mn un v = Ok i ->
  physical_to_pixel mn un v' = Ok (i + np)%Z ->
  (- np <= i < 0)%Z ->
  slice self name v = slice self name v'.
Proof.
  intros Hmn Hun Hnp Hv Hv' Hi. unfold slice.
  destruct (assert_hasattr (likelihood self)) as [lik|e]; [|reflexivity].
  simpl.
  destruct (getattr (parameter_axes self)) as [axes|e]; [|reflexivity].
  simpl.
  destruct (py_assert (in_keys axes name)) as [u|e]; [|reflexivity].
  simpl.
  destruct (ndim lik <? 3)%nat; [reflexivity|].
  destruct (axes_getitem axes name) as [axis|e]; [|reflexivity].
  simpl. unfold getitem. rewrite Hmn, Hun, Hnp. simpl.
  rewrite Hv, Hv'. simpl.
  destruct (Z.ltb_spec i np) as [_|?]; [|lia].
  destruct (Z.ltb_spec (i + np) np) as [_|?]; [|lia].
  simpl.
  destruct (split_width lik np axis) as [width|e]; [|reflexivity].
  simpl.
  assert (Hw : wrap_index (Z.to_nat np) i
               = wrap_index (Z.to_nat np) (i + np)).
  { unfold wrap_index. rewrite Z2Nat.id by lia.
    destruct (Z.leb_spec 0 i); [lia|].
    destruct (Z.leb_spec (- np) i); [|lia].
    destruct (Z.ltb_spec i 0); [|lia].
    destruct (Z.leb_spec 0 (i + np)); [|lia].
    destruct (Z.ltb_spec (i + np) np); [|lia].
    reflexivity. }
  rewrite Hw. reflexivity.
Qed.

(** ** The 1-D level finder, when it returns *)

Lemma Qltb_asym (x y : Q) : Qltb x y = true -> Qltb y x = false.
Proof.
  unfold Qltb. rewrite negb_true_iff, negb_false_iff.
  intros H. apply Qle_bool_iff, Qlt_le_weak, Qnot_le_lt.
  intros E. apply Qle_bool_iff in E. congruence.
Qed.

Lemma Qleb_of_not_Qltb (x y : Q) : Qltb y x = false <-> x <= y.
Proof.
  unfold Qltb. rewrite negb_false_iff. apply Qle_bool_iff.
Qed.

Lemma Qltb_le_trans (x y z : Q) :
  Qltb y x = false -> Qltb z y = false -> Qltb z x = false.
Proof.
  rewrite !Qleb_of_not_Qltb. apply Qle_trans.
Qed.

Lemma StronglySorted_impl {A : Type} (R R' : A -> A -> Prop) (l : list A) :
  (forall a b, R a b -> R' a b) ->
  StronglySorted R l -> StronglySorted R' l.
Proof.
  intros HR. induction 1 as [|x l Hl IH Hx]; constructor; [exact IH|].
  eapply Forall_impl; [exact Hx|]. auto.
Qed.

Lemma collect_ranks_spec (p : list Q) (ranks : list Z) (ns : list nat) :
  forall par,
    collect_ranks p ranks ns = Ok par ->
    length par = length ns /\ forall x, x ∈ par -> x ∈ p.
Proof.
  induction ns as [|n ns IH]; intros par; simpl.
  - intros [= <-]. split; [reflexivity|]. intros x Hx. inversion Hx.
  - intros H. inv_bind H as i Hi. inv_bind H as v Hv.
    inv_bind H as rest Hrest. injection H as <-.
    destruct (IH rest Hrest) as [Hlen Hin].
    split; [simpl; now rewrite Hlen|].
    intros x Hx. apply elem_of_cons in Hx as [->|Hx]; [|auto].
    unfold index in Hv. destruct (p !! i) as [y|] eqn:E; [|discriminate].
    injection Hv as ->. eapply list_elem_of_lookup_2. exact E.
Qed.

(** X11: when [_1d_level_values] returns, it returns exactly [quantity]
    values, all taken from the parameter samples, in order of distance
    from the parameter of the first maximum of the likelihood: the value
    closest to the mode comes first. *)
Theorem level_values_ordered_by_closeness (p l : list Q) (level : Q)
  (quantity : nat) (par : list Q) :
  _1d_level_values p l level quantity = Ok par ->
  exists lmax maximum parmax,
    arr_max l = Ok lmax /\
    first_index (fun v => Qeqb v lmax) l = Ok maximum /\
    p !! maximum = Some parmax /\
    length par = quantity /\
    (forall x, x ∈ par -> x ∈ p) /\
    StronglySorted (fun a b => Qabs (a - parmax) <= Qabs (b - parmax)) par.
Proof.
  unfold _1d_level_values. intros H.
  inv_bind H as lmax Hmax. inv_bind H as maximum Hfirst.
  inv_bind H as parmax Hpm. inv_bind H as closest Hc.
  inv_bind H as lc Hlc. inv_bind H as par0 Hpar. injection H as <-.
  apply collect_ranks_spec in Hpar as [Hlen Hin].
  rewrite length_seq in Hlen.
  unfold index in Hpm. destruct (p !! maximum) as [pm|] eqn:E;
    [|discriminate].
  injection Hpm as ->.
  exists lmax, maximum, parmax. repeat (split; [assumption|]).
  split; [|split].
  - now rewrite sort_by_perm.
  - intros x Hx. apply Hin. now rewrite sort_by_perm in Hx.
  - eapply StronglySorted_impl;
      [|apply (sort_by_sorted Qltb (fun x => Qabs (x - parmax)));
        [apply Qltb_asym|apply Qltb_le_trans]].
    intros a b Hab. now apply Qleb_of_not_Qltb.
Qed.

(** ** The search: confidence and step *)

Lemma Qmax_list_upper (l : list Q) (m : Q) :
  Qmax_list l = Some m -> Forall (fun x => x <= m) l.
Proof.
  revert m. induction l as [|x l IH]; intros m; simpl; [constructor|].
  destruct (Qmax_list l) as [m'|] eqn:E.
  - intros [= <-]. specialize (IH m' eq_refl).
    unfold Qltb. destruct (Qle_bool m' x) eqn:Hc; simpl.
    + apply Qle_bool_iff in Hc. constructor; [apply Qle_refl|].
      eapply Forall_impl; [exact IH|]. intros y Hy. simpl in *.
      eapply Qle_trans; eassumption.
    + constructor; [|exact IH].
      apply Qlt_le_weak, Qnot_le_lt. intros Hle.
      apply Qle_bool_iff in Hle. congruence.
  - intros [= <-]. destruct l; [|simpl in E; destruct (Qmax_list l);
                                   discriminate].
    constructor; [apply Qle_refl|constructor].
Qed.

Lemma Qltb_true_iff (x y : Q) : Qltb x y = true <-> x < y.
Proof.
  unfold Qltb. rewrite negb_true_iff. split.
  - intros H. apply Qnot_le_lt. intros E. apply Qle_bool_iff in E.
    congruence.
  - intros H. destruct (Qle_bool y x) eqn:E; [|reflexivity].
    apply Qle_bool_iff in E. exfalso. eapply Qlt_not_le; eassumption.
Qed.

Lemma filter_Qltb_cons (v x : Q) (l : list Q) :
  filter (fun y => Qltb v y) (x :: l)
  = if Qltb v x then x :: filter (fun y => Qltb v y) l
    else filter (fun y => Qltb v y) l.
Proof.
  rewrite filter_cons. destruct (Qltb v x) eqn:E.
  - rewrite decide_True; [reflexivity|exact I].
  - rewrite decide_False; [reflexivity|auto].
Qed.

Lemma Qsum_above_antitone (l : list Q) (v v' : Q) :
  Forall (fun x => 0 <= x) l -> v <= v' ->
  Qsum (filter (fun x => Qltb v' x) l) <= Qsum (filter (fun x => Qltb v x) l).
Proof.
  intros Hpos Hv. induction Hpos as [|x l Hx _ IH].
  - apply Qle_refl.
  - rewrite !filter_Qltb_cons.
    destruct (Qltb v' x) eqn:E'; destruct (Qltb v x) eqn:E; simpl.
    + now apply Qplus_le_r.
    + apply Qltb_true_iff in E'.
      assert (Hlt : v < x) by (eapply Qle_lt_trans; eassumption).
      apply Qltb_true_iff in Hlt. congruence.
    + rewrite <- (Qplus_0_l (Qsum _)) at 1. now apply Qplus_le_compat.
    + exact IH.
Qed.

(** X12: the confidence [likelihood[likelihood > value].sum()] of a grid
    with no negative entry never increases when the threshold is raised;
    it is zero from the maximum of the grid on, and it is the total of the
    grid for a threshold below every entry. *)
Theorem confidence_decreases_with_threshold (lik : ndarray) (v v' : Q) :
  Forall (fun x => 0 <= x) (data lik) ->
  v <= v' ->
  confidence lik v' <= confidence lik v /\
  (forall m, arr_max (data lik) = Ok m -> m <= v -> confidence lik v = 0) /\
  (Forall (fun x => v < x) (data lik) -> confidence lik v = arr_sum lik).
Proof.
  intros Hpos Hv. unfold confidence, arr_sum.
  split; [now apply Qsum_above_antitone|]. split.
  - intros m Hm Hmv. unfold arr_max in Hm.
    destruct (Qmax_list (data lik)) as [m'|] eqn:E; [|discriminate].
    injection Hm as ->. apply Qmax_list_upper in E.
    replace (filter (fun x => Qltb v x) (data lik)) with (@nil Q);
      [reflexivity|].
    symmetry. clear Hpos. induction E as [|x l Hx _ IH]; [reflexivity|].
    rewrite filter_Qltb_cons.
    destruct (Qltb v x) eqn:Hc; [|exact IH].
    apply Qltb_true_iff in Hc. exfalso.
    apply (Qlt_not_le _ _ Hc). eapply Qle_trans; eassumption.
  - intros Hall. f_equal. clear Hpos.
    induction Hall as [|x l Hx _ IH]; [reflexivity|].
    rewrite filter_Qltb_cons.
    apply Qltb_true_iff in Hx. rewrite Hx. now rewrite IH.
Qed.

Lemma search_step_shrinks (lik : ndarray) (level : Q) (s : search_state) :
  0 < s_step s ->
  0 < s_step (search_step lik level s) /\
  s_step (search_step lik level s) <= s_step s.
Proof.
  intros Hpos.
  assert (H10 : 0 < s_step s / 10 /\ s_step s / 10 <= s_step s).
  { split.
    - apply Qlt_shift_div_l; [reflexivity|]. now rewrite Qmult_0_l.
    - apply Qle_shift_div_r; [reflexivity|].
      rewrite <- (Qmult_1_r (s_step s)) at 1.
      apply Qmult_le_l; [exact Hpos|]. discriminate. }
  unfold search_step.
  destruct (Qltb level (s_confidence_integral s));
    [destruct (s_direction s =? -1)%Z|destruct (s_direction s =? 1)%Z];
    simpl; auto using Qle_refl.
Qed.

Lemma search_loop_shrinks (lik : ndarray) (level epsilon : Q) (fuel : nat) :
  forall s,
    0 < s_step s ->
    0 < s_step (search_loop lik level epsilon fuel s) /\
    s_step (search_loop lik level epsilon fuel s) <= s_step s.
Proof.
  induction fuel as [|fuel IH]; intros s Hpos; simpl.
  - destruct (off_target level epsilon s); auto using Qle_refl.
  - destruct (off_target level epsilon s); [|auto using Qle_refl].
    destruct (search_step_shrinks lik level s Hpos) as [H1 H2].
    destruct (IH _ H1) as [H3 H4]. split; [exact H3|].
    eapply Qle_trans; eassumption.
Qed.

(** X13: the step of the search only ever shrinks, across the whole
    call.  Started from a positive step, every level's search ends with a
    positive step that is no larger than the one the search before it
    ended with (and than the initial one): the step is never enlarged or
    set back for a new level. *)
Theorem step_never_grows (chi2_seed : Q -> Q) (lik : ndarray)
  (maxl epsilon : Q) (max_iterations : Z) (levels : list Q)
  (step : Q) (direction : Z) :
  0 < step ->
  let trace := search_trace chi2_seed lik maxl epsilon max_iterations
                 levels step direction in
  Forall (fun s => 0 < s_step s /\ s_step s <= step) trace /\
  StronglySorted (fun a b => s_step b <= s_step a) trace.
Proof.
  revert step direction.
  induction levels as [|level rest IH]; intros step direction Hpos; simpl.
  - split; constructor.
  - set (s := search_level chi2_seed lik maxl epsilon max_iterations step
                direction level).
    destruct (search_loop_shrinks lik level epsilon
                (Z.to_nat max_iterations)
                (mk_search_state (maxl * chi2_seed level)
                   (confidence lik (maxl * chi2_seed level)) step direction)
                Hpos) as [H1 H2].
    fold (search_level chi2_seed lik maxl epsilon max_iterations step
            direction level) in H1, H2. fold s in H1, H2. simpl in H2.
    destruct (IH (s_step s) (s_direction s) H1) as [Hall Hsorted].
    split.
    + constructor; [auto|].
      eapply Forall_impl; [exact Hall|]. intros t [Ht1 Ht2]. split; [auto|].
      eapply Qle_trans; eassumption.
    + constructor; [exact Hsorted|].
      eapply Forall_impl; [exact Hall|]. intros t [_ Ht]. exact Ht.
Qed.

(** ** The 1-D marginal and the point marker *)

Lemma linspace_spec (a b : Q) (n : Z) (range : list Q) :
  linspace a b n = Ok range ->
  length range = Z.to_nat n /\
  (n <> 1%Z ->
   forall i, (i < Z.to_nat n)%nat ->
     range !! i
     = Some (pixel_to_physical a ((b - a) / inject_Z (n - 1)) (Z.of_nat i))).
Proof.
  unfold linspace. destruct (Z.ltb_spec n 0); [discriminate|].
  destruct (Z.eqb_spec n 1) as [->|Hne].
  - intros [= <-]. split; [reflexivity|]. intros E. congruence.
  - intros [= <-]. rewrite length_map, length_seq. split; [reflexivity|].
    intros _ i Hi. rewrite list_lookup_fmap, lookup_seq_lt by assumption.
    reflexivity.
Qed.

Lemma simps_lengths (y x : list Q) (q : Q) :
  simps y x = Ok q -> length x = length y.
Proof.
  unfold simps. destruct (Nat.eqb_spec (length x) (length y)); [auto|].
  discriminate.
Qed.

(** X14: what [marginal] returns is laid out on the pixels of the
    parameter.  The range and the marginal likelihood both have
    [num_points] entries, entry [i] of the range is the physical
    coordinate [i * unit + min] of pixel [i] for the unit
    [(max - min) / (num_points - 1)], and the reported maximum is one of
    the entries of the range. *)
Theorem marginal_is_laid_out_on_pixels (self : ContourPlot) (name : string)
  (levels : option (list Q)) (r : marginal_result) :
  marginal self name levels = Ok r ->
  exists mn mx np,
    self_min self !! name = Some mn /\
    self_max self !! name = Some mx /\
    self_npoints self !! name = Some np /\
    length (parameter_range r) = Z.to_nat np /\
    length (marginal_likelihood r) = Z.to_nat np /\
    (par_max r ∈ parameter_range r) /\
    (np <> 1%Z ->
     forall i, (i < Z.to_nat np)%nat ->
       parameter_range r !! i
       = Some (pixel_to_physical mn ((mx - mn) / inject_Z (np - 1))
                 (Z.of_nat i))).
Proof.
  intros H. pose proof H as Hinv.
  apply marginal_inv in Hinv
    as (lik & axes & rem & rem_axes & mn & mx & np & summed & norm
        & _ & _ & _ & _ & Hmn & Hmx & Hnp & Hrange & _ & Hnorm & Hml).
  exists mn, mx, np. repeat (split; [assumption|]).
  destruct (linspace_spec _ _ _ _ Hrange) as [Hlen Hpix].
  split; [exact Hlen|]. split; [|split; [|exact Hpix]].
  - rewrite Hml, length_map, <- (simps_lengths _ _ _ Hnorm). exact Hlen.
  - unfold marginal in H.
    inv_bind H as lik0 E1. inv_bind H as axes0 E2. inv_bind H as u E3.
    inv_bind H as rem1 E4. inv_bind H as ra E5. inv_bind H as mn0 E6.
    inv_bind H as mx0 E7. inv_bind H as np0 E8. inv_bind H as range E9.
    inv_bind H as summed0 E10. inv_bind H as u' E11.
    inv_bind H as norm0 E12. inv_bind H as m E13. inv_bind H as imax E14.
    inv_bind H as pmax E15.
    unfold index in E15. destruct (range !! imax) as [x|] eqn:Hx;
      [|discriminate].
    injection E15 as ->.
    assert (Hin : pmax ∈ range) by (eapply list_elem_of_lookup_2; eauto).
    destruct levels as [lv|].
    + inv_bind H as ext E16. injection H as <-. exact Hin.
    + injection H as <-. exact Hin.
Qed.

(** X15: [point] looks the reduced likelihood up at the truncated pixel
    [int((coordinate - min) / unit)] of each of its two coordinates, for
    the first two remaining parameters, and lets numpy's error through:
    when the first index reaches the extent of the first axis it raises
    [IndexError], where [value] returns [None]. *)
Theorem point_at_computed_pixels (self : ContourPlot) (red : ndarray)
  (r0 r1 : string) (rest : list string) (mn0 un0 mn1 un1 x y : Q) :
  remaining_parameters self = Some (r0 :: r1 :: rest) ->
  reduced_likelihood self = Some red ->
  self_min self !! r0 = Some mn0 ->
  self_unit self !! r0 = Some un0 ->
  self_min self !! r1 = Some mn1 ->
  self_unit self !! r1 = Some un1 ->
  ~ un0 == 0 ->
  ~ un1 == 0 ->
  let i := py_int ((x - mn0) / un0) in
  let j := py_int ((y - mn1) / un1) in
  point self x y = arr_getsub red [i; j] /\
  (forall n, shape red !! 0%nat = Some n -> (Z.of_nat n <= i)%Z ->
             point self x y = Err IndexError).
Proof.
  intros Hrem Hred Hmn0 Hun0 Hmn1 Hun1 Hnz0 Hnz1 i j.
  assert (Hpoint : point self x y = arr_getsub red [i; j]).
  { unfold point. rewrite Hrem, Hred. simpl.
    unfold getitem. rewrite Hmn0, Hun0. simpl.
    rewrite physical_to_pixel_ok by assumption. simpl.
    rewrite Hmn1, Hun1. simpl.
    rewrite physical_to_pixel_ok by assumption. reflexivity. }
  split; [exact Hpoint|].
  intros n Hn Hi. rewrite Hpoint. unfold arr_getsub.
  rewrite (flat_offset_above _ [i; j] 0 0 n i); auto.
  simpl. destruct (shape red) as [|n0 [|n1 shp]]; simpl in *; congruence.
Qed.

(** ** The reported maximum *)

Lemma first_index_from_spec {A : Type} (f : A -> bool) (l : list A) :
  forall start i,
    first_index_from f l start = Ok i ->
    exists x, l !! (i - start)%nat = Some x /\ f x = true /\
              (start <= i)%nat.
Proof.
  induction l as [|y l IH]; intros start i; simpl; [discriminate|].
  destruct (f y) eqn:E.
  - intros [= <-]. exists y. rewrite Nat.sub_diag. auto.
  - intros H. destruct (IH _ _ H) as (x & Hx & Hf & Hle).
    exists x. replace (i - start)%nat with (S (i - S start)) by lia.
    simpl. repeat split; auto. lia.
Qed.

Lemma first_index_spec {A : Type} (f : A -> bool) (l : list A) (i : nat) :
  first_index f l = Ok i -> exists x, l !! i = Some x /\ f x = true.
Proof.
  intros H. apply first_index_from_spec in H as (x & Hx & Hf & _).
  rewrite Nat.sub_0_r in Hx. eauto.
Qed.

Lemma first_index_from_first {A : Type} (f : A -> bool) (l : list A) :
  forall start i,
    first_index_from f l start = Ok i ->
    forall k x, (k < i - start)%nat -> l !! k = Some x -> f x = false.
Proof.
  induction l as [|y l IH]; intros start i; simpl; [discriminate|].
  destruct (f y) eqn:E.
  - intros [= <-] k x Hk. lia.
  - intros H k x Hk Hx. destruct k as [|k]; simpl in Hx.
    + now injection Hx as <-.
    + apply (IH _ _ H k x); [lia|exact Hx].
Qed.

Lemma Qmax_list_in (l : list Q) (m : Q) :
  Qmax_list l = Some m -> m ∈ l.
Proof.
  revert m. induction l as [|x l IH]; intros m; simpl; [discriminate|].
  destruct (Qmax_list l) as [m'|].
  - intros [= <-]. destruct (Qltb x m'); [right; auto|left].
  - intros [= <-]. left.
Qed.

Lemma first_index_from_exists {A : Type} (f : A -> bool) (l : list A) :
  forall start x,
    x ∈ l -> f x = true -> exists i, first_index_from f l start = Ok i.
Proof.
  induction l as [|y l IH]; intros start x Hin Hf; [inversion Hin|].
  simpl. destruct (f y) eqn:E; [eauto|].
  apply elem_of_cons in Hin as [->|Hin]; [congruence|]. eauto.
Qed.

Lemma max_loc_ok (a : ndarray) :
  data a <> [] -> exists pos, max_loc a = Ok pos.
Proof.
  intros Hne. unfold max_loc, arr_max.
  destruct (Qmax_list (data a)) as [m|] eqn:E.
  - simpl. apply (first_index_from_exists _ _ 0%nat m).
    + now apply Qmax_list_in.
    + apply Qeq_bool_refl.
  - destruct (data a) as [|x l]; [congruence|].
    simpl in E. destruct (Qmax_list l); discriminate.
Qed.

(** The coordinates of a flat position address that position. *)
Lemma flat_offset_of_coords (pos : nat) (shp : list nat) :
  forall acc,
    (0 < prod_nat shp)%nat ->
    flat_offset shp
      (map (fun k => Z.of_nat
                       ((pos / prod_nat (skipn (S k) shp))
                        mod nth k shp 0%nat))
           (seq 0 (length shp))) acc
    = Ok (acc * prod_nat shp + pos mod prod_nat shp)%nat.
Proof.
  induction shp as [|n shp IH]; intros acc Hpos; simpl.
  - f_equal. lia.
  - simpl in Hpos.
    assert (Hn : (0 < n)%nat) by nia.
    assert (Hp : (0 < prod_nat shp)%nat) by nia.
    rewrite drop_0.
    assert (Hc : ((pos / prod_nat shp) mod n < n)%nat)
      by (apply Nat.mod_upper_bound; lia).
    unfold wrap_index.
    destruct (Z.leb_spec 0 (Z.of_nat ((pos / prod_nat shp) mod n)));
      [|lia].
    destruct (Z.ltb_spec (Z.of_nat ((pos / prod_nat shp) mod n))
                (Z.of_nat n)); [|lia].
    simpl. rewrite Nat2Z.id.
    rewrite <- seq_shift, map_map. simpl.
    rewrite (IH _ Hp). f_equal.
    rewrite (Nat.mul_comm n (prod_nat shp)), Nat.Div0.mod_mul_r. lia.
Qed.

Lemma getMaximum_full_spec (self : ContourPlot) (lik : ndarray)
  (axes : list (string * nat)) (pos : nat) (ps : list string) :
  max_loc lik = Ok pos ->
  forall acc m,
    getMaximum_full self lik axes ps acc = Ok m ->
    (forall p, p ∉ ps -> m !! p = acc !! p) /\
    (forall p ax mn un n,
        p ∈ ps ->
        axes_get axes p = Some ax ->
        self_min self !! p = Some mn ->
        self_unit self !! p = Some un ->
        shape lik !! ax = Some n ->
        m !! p = Some (pixel_to_physical mn un
                         (Z.of_nat (coord_along lik ax n pos)))).
Proof.
  intros Hpos. induction ps as [|p0 ps IH]; intros acc m; simpl.
  - intros [= <-]. split; [auto|]. intros p ? ? ? ? Hp. inversion Hp.
  - intros H. inv_bind H as axis Haxis. inv_bind H as c Hc.
    inv_bind H as un0 Hun0. inv_bind H as mn0 Hmn0.
    destruct (IH _ _ H) as [Hkeep Hset].
    split.
    + intros p Hp. apply not_elem_of_cons in Hp as [Hne Hp].
      rewrite (Hkeep p Hp). apply lookup_insert_ne. congruence.
    + intros p ax mn un n Hp Hax Hmn Hun Hn.
      destruct (decide (p ∈ ps)) as [Hin|Hnot]; [eapply Hset; eauto|].
      apply elem_of_cons in Hp as [->|Hp]; [|contradiction].
      rewrite (Hkeep p0 Hnot), lookup_insert_eq. f_equal.
      unfold axes_getitem in Haxis. rewrite Hax in Haxis.
      injection Haxis as <-.
      unfold getitem in Hun0, Hmn0. rewrite Hun in Hun0. rewrite Hmn in Hmn0.
      injection Hun0 as <-. injection Hmn0 as <-.
      unfold max_coord in Hc. rewrite Hpos in Hc. simpl in Hc.
      unfold index in Hc. rewrite Hn in Hc. simpl in Hc.
      injection Hc as <-. reflexivity.
Qed.

(** X16: [getMaximum("full")] reports the first cell, in row-major
    order, that holds the largest likelihood.  On a calibrated,
    well-formed grid there is a position whose entry equals the maximum,
    no earlier entry does, the position's pixel tuple addresses that entry,
    and each registered parameter is reported at [pixel * unit + min] for
    the position's pixel along the parameter's axis; names that are not
    registered are not reported. *)
Theorem getMaximum_reports_first_maximum (self : ContourPlot)
  (lik : ndarray) (axes : list (string * nat)) (m : gmap string Q) :
  likelihood self = Some lik ->
  parameter_axes self = Some axes ->
  registry_ok self axes lik ->
  covers axes lik ->
  length (data lik) = prod_nat (shape lik) ->
  getMaximum self "full" = Ok m ->
  exists (pos : nat) (v top : Q),
    (arr_max (data lik) = Ok top /\
     Forall (fun x => x <= top) (data lik)) /\
    (data lik !! pos = Some v /\ v == top /\
     forall k x, (k < pos)%nat -> data lik !! k = Some x -> ~ x == top) /\
    arr_getitem lik
      (map (fun ax => Z.of_nat
                        (coord_along lik ax (nth ax (shape lik) 0%nat) pos))
           (seq 0 (ndim lik))) = Ok v /\
    (forall p ax mn un n,
        (p, ax) ∈ axes ->
        self_min self !! p = Some mn ->
        self_unit self !! p = Some un ->
        shape lik !! ax = Some n ->
        m !! p = Some (pixel_to_physical mn un
                         (Z.of_nat (coord_along lik ax n pos)))) /\
    (forall p, p ∉ keys axes -> m !! p = None).
Proof.
  intros Hlik Haxes Hreg Hcov Hwf Hmax.
  unfold getMaximum in Hmax. simpl in Hmax.
  rewrite Hlik, Haxes in Hmax. simpl in Hmax.
  assert (Hloc : exists pos, max_loc lik = Ok pos).
  { destruct axes as [|[p ax] axes'].
    - apply max_loc_ok.
      destruct (shape lik) as [|n shp] eqn:Hs.
      + intros Hd. rewrite Hd in Hwf. discriminate.
      + destruct (Hcov 0%nat) as [p Hp0];
          [unfold ndim; rewrite Hs; simpl; lia|]. inversion Hp0.
    - simpl in Hmax. inv_bind Hmax as axis Haxis. inv_bind Hmax as c Hc.
      unfold max_coord in Hc. inv_bind Hc as pos Hpos. eauto. }
  destruct Hloc as [pos Hpos].
  pose proof (getMaximum_full_spec self lik axes pos (keys axes) Hpos
                _ _ Hmax) as [Hkeep Hset].
  unfold max_loc in Hpos. inv_bind Hpos as top Htop.
  pose proof (first_index_from_first _ _ _ _ Hpos) as Hfirst.
  apply first_index_spec in Hpos as (v & Hv & Hf).
  assert (Hlt : (pos < prod_nat (shape lik))%nat).
  { rewrite <- Hwf. now apply lookup_lt_Some in Hv. }
  exists pos, v, top.
  split; [|split; [|split; [|split]]].
  - split; [exact Htop|]. apply Qmax_list_upper.
    unfold arr_max in Htop. destruct (Qmax_list (data lik));
      [now injection Htop as ->|discriminate].
  - split; [exact Hv|]. split; [now apply Qeq_bool_iff|].
    intros k x Hk Hx E. rewrite Nat.sub_0_r in Hfirst.
    pose proof (Hfirst k x Hk Hx) as Hne.
    apply Qeq_bool_iff in E. unfold Qeqb in Hne. congruence.
  - unfold arr_getitem, ndim, coord_along, inner_of.
    rewrite flat_offset_of_coords by lia. simpl.
    rewrite Nat.mod_small by lia. unfold index. now rewrite Hv.
  - intros p ax mn un n Hin Hmn Hun Hn.
    apply (Hset p ax mn un n); auto.
    + apply list_elem_of_fmap. exists (p, ax). auto.
    + now apply axes_get_in; [apply Hreg|].
  - intros p Hp. rewrite (Hkeep p Hp). apply lookup_empty.
Qed.

(** ** Expectation values *)

Lemma Qsum_zip_bounds (lo hi : Q) (f w : list Q) :
  length f = length w ->
  Forall (fun x => lo <= x /\ x <= hi) f ->
  Forall (fun x => 0 <= x) w ->
  lo * Qsum w <= Qsum (zip_with Qmult f w) /\
  Qsum (zip_with Qmult f w) <= hi * Qsum w.
Proof.
  revert w. induction f as [|x f IH]; intros [|y w] Hlen Hf Hw;
    try discriminate; simpl.
  - split; rewrite Qmult_0_r; apply Qle_refl.
  - apply Forall_cons in Hf as [[Hlo Hhi] Hf].
    apply Forall_cons in Hw as [Hy Hw].
    injection Hlen as Hlen.
    destruct (IH w Hlen Hf Hw) as [IH1 IH2].
    rewrite !Qmult_plus_distr_r. split.
    + apply Qplus_le_compat; [|exact IH1]. now apply Qmult_le_compat_r.
    + apply Qplus_le_compat; [|exact IH2]. now apply Qmult_le_compat_r.
Qed.

(** X17: [expectationValue] is a weighted mean.  When the likelihood has
    no negative entry and a positive total, and the function's array has
    the shape and size of the grid with all its values between two
    bounds, the expectation lies between the same bounds; for a constant
    function it is the constant. *)
Theorem expectation_is_a_mean (self : ContourPlot) (lik : ndarray)
  (axes : list (string * nat)) (mesh : list ndarray)
  (function : list ndarray -> ndarray) (lo hi : Q) :
  likelihood self = Some lik ->
  parameter_axes self = Some axes ->
  parameter_mesh_of self axes = Ok mesh ->
  shape (function mesh) = shape lik ->
  length (data (function mesh)) = length (data lik) ->
  Forall (fun x => 0 <= x) (data lik) ->
  0 < arr_sum lik ->
  Forall (fun x => lo <= x /\ x <= hi) (data (function mesh)) ->
  exists e, expectationValue self function = Ok e /\ lo <= e /\ e <= hi.
Proof.
  intros Hlik Haxes Hmesh Hshape Hlen Hpos Htot Hf.
  eexists. split.
  { unfold expectationValue. rewrite Hlik, Haxes. simpl.
    rewrite Hmesh. simpl. unfold arr_mul.
    rewrite bool_decide_eq_true_2 by assumption. reflexivity. }
  unfold arr_sum at 1 3. simpl.
  destruct (Qsum_zip_bounds lo hi _ _ Hlen Hf Hpos) as [H1 H2].
  split.
  - apply Qle_shift_div_l; assumption.
  - apply Qle_shift_div_r; assumption.
Qed.

Lemma Qsum_zip_nonneg (w d : list Q) :
  Forall (fun x => 0 <= x) w -> Forall (fun x => 0 <= x) d ->
  0 <= Qsum (zip_with Qmult w d).
Proof.
  intros Hw. revert d. induction Hw as [|x w Hx _ IH]; intros [|y d] Hd;
    simpl; try apply Qle_refl.
  apply Forall_cons in Hd as [Hy Hd].
  rewrite <- (Qplus_0_l 0). apply Qplus_le_compat; [|auto].
  now apply Qmult_le_0_compat.
Qed.

Lemma Qsquare_nonneg (d : Q) : 0 <= d * d.
Proof.
  destruct (Qlt_le_dec d 0) as [Hneg|Hge].
  - assert (E : d * d == (- d) * (- d)) by ring. rewrite E.
    assert (Hpos : 0 <= - d).
    { apply Qlt_le_weak. apply (Qopp_lt_compat d 0) in Hneg. exact Hneg. }
    now apply Qmult_le_0_compat.
  - now apply Qmult_le_0_compat.
Qed.

(** X18: [variance] never comes out negative.  Under the same conditions
    on the likelihood and the function's array it returns whenever
    [expectationValue] does, with a value of at least zero. *)
Theorem variance_is_not_negative (self : ContourPlot) (lik : ndarray)
  (axes : list (string * nat)) (mesh : list ndarray)
  (function : list ndarray -> ndarray) :
  likelihood self = Some lik ->
  parameter_axes self = Some axes ->
  parameter_mesh_of self axes = Ok mesh ->
  shape (function mesh) = shape lik ->
  Forall (fun x => 0 <= x) (data lik) ->
  0 < arr_sum lik ->
  exists var, variance self function = Ok var /\ 0 <= var.
Proof.
  intros Hlik Haxes Hmesh Hshape Hpos Htot.
  eexists. split.
  { unfold variance, expectationValue. rewrite Hlik, Haxes. simpl.
    rewrite Hmesh. simpl. unfold arr_mul.
    rewrite bool_decide_eq_true_2 by assumption. simpl.
    rewrite bool_decide_eq_true_2 by (simpl; congruence). reflexivity. }
  unfold arr_sum at 1. simpl.
  apply Qle_shift_div_l; [exact Htot|]. rewrite Qmult_0_l.
  apply Qsum_zip_nonneg; [exact Hpos|].
  apply Forall_forall. intros y Hy.
  apply list_elem_of_fmap in Hy as (x & -> & _).
  apply Qsquare_nonneg.
Qed.

(** ** The parameter mesh lines up with the grid *)

Lemma seq_strongly_sorted (s n : nat) : StronglySorted le (seq s n).
Proof.
  revert s. induction n as [|n IH]; intros s; simpl; constructor.
  - apply IH.
  - apply Forall_forall. intros x Hx. apply elem_of_seq in Hx. lia.
Qed.

Lemma axes_get_fst (axes : list (string * nat)) :
  NoDup (keys axes) ->
  map (fun p => default 0%nat (axes_get axes p)) (keys axes) = map snd axes.
Proof.
  intros Hnd. unfold keys. rewrite map_map. apply map_ext_in.
  intros [p ax] Hin. simpl.
  rewrite (axes_get_in axes p ax Hnd); [reflexivity|].
  now apply list_elem_of_In.
Qed.

(** Sorted by axis, the parameters of a full registry are in the order
    of the axes [0, 1, ...]. *)
Lemma sorted_parameters_axes (axes : list (string * nat)) (n : nat) :
  NoDup (keys axes) ->
  NoDup (map snd axes) ->
  Forall (fun pa => (snd pa < n)%nat) axes ->
  length axes = n ->
  map (fun p => default 0%nat (axes_get axes p))
      (sort_by key_lt (axes_get axes) (keys axes))
  = seq 0 n.
Proof.
  intros Hkeys Hax Hrange Hlen.
  apply (StronglySorted_unique le).
  - apply (StronglySorted_fmap _
             (fun a b => key_lt (axes_get axes b) (axes_get axes a) = false)).
    + intros x y. destruct (axes_get axes x), (axes_get axes y); simpl;
        try lia; try discriminate.
      rewrite Nat.ltb_ge. lia.
    + apply sort_by_sorted; [apply key_lt_asym|apply key_le_trans].
  - apply seq_strongly_sorted.
  - rewrite sort_by_perm, axes_get_fst by assumption.
    apply submseteq_length_Permutation.
    + apply NoDup_submseteq; [exact Hax|].
      intros x Hx. apply list_elem_of_fmap in Hx as (pa & -> & Hpa).
      apply elem_of_seq.
      pose proof (proj1 (Forall_forall _ _) Hrange _ Hpa) as Hlt.
      simpl in Hlt. lia.
    + rewrite length_seq, length_map. lia.
Qed.

Lemma mesh_axes_of_spec (self : ContourPlot) (axes : list (string * nat))
  (lik : ndarray) (ps : list string) :
  Forall (fun p => exists ax mn mx np,
              axes_get axes p = Some ax /\
              self_min self !! p = Some mn /\
              self_max self !! p = Some mx /\
              self_npoints self !! p = Some np /\
              (0 <= np)%Z /\
              shape lik !! ax = Some (Z.to_nat np)) ps ->
  exists mas,
    mesh_axes_of self ps = Ok mas /\
    map (fun s => Some (length s)) mas
    = map (fun p => shape lik !! default 0%nat (axes_get axes p)) ps.
Proof.
  induction 1 as [|p ps (ax & mn & mx & np & Hax & Hmn & Hmx & Hnp & H0 & Hs)
                    _ (mas & Hrun & Hlen)]; simpl.
  - exists []. auto.
  - unfold getitem. rewrite Hmn, Hmx, Hnp. simpl.
    destruct (linspace mn mx np) as [range|e] eqn:E.
    + simpl. rewrite Hrun. simpl. eexists. split; [reflexivity|].
      simpl. rewrite Hlen, Hax. simpl. rewrite Hs.
      now rewrite (proj1 (linspace_spec _ _ _ _ E)).
    + exfalso. unfold linspace in E.
      destruct (Z.ltb_spec np 0); [lia|].
      destruct (np =? 1)%Z; discriminate.
Qed.

(** X19: on a calibrated grid whose pixel counts are the extents of the
    axes, the mesh that [expectationValue] and [variance] hand to the
    function lines up with the likelihood: it has one array per axis,
    each of the shape of the grid and well formed. *)
Theorem parameter_mesh_matches_grid (self : ContourPlot) (lik : ndarray)
  (axes : list (string * nat)) :
  NoDup (keys axes) ->
  NoDup (map snd axes) ->
  length axes = ndim lik ->
  Forall (fun pa => exists mn mx np,
              self_min self !! fst pa = Some mn /\
              self_max self !! fst pa = Some mx /\
              self_npoints self !! fst pa = Some np /\
              (0 <= np)%Z /\
              shape lik !! snd pa = Some (Z.to_nat np)) axes ->
  exists mesh,
    parameter_mesh_of self axes = Ok mesh /\
    length mesh = ndim lik /\
    Forall (fun a => shape a = shape lik /\
                     length (data a) = prod_nat (shape a)) mesh.
Proof.
  intros Hkeys Hax Hlen Hcal.
  assert (Hrange : Forall (fun pa => (snd pa < ndim lik)%nat) axes).
  { eapply Forall_impl; [exact Hcal|].
    intros pa (mn & mx & np & _ & _ & _ & _ & Hs).
    now apply lookup_lt_Some in Hs. }
  set (ps := sort_by key_lt (axes_get axes) (keys axes)).
  destruct (mesh_axes_of_spec self axes lik ps) as (mas & Hrun & Hshape).
  { apply Forall_forall. intros p Hp. unfold ps in Hp.
    rewrite sort_by_perm in Hp.
    apply list_elem_of_fmap in Hp as ([p' ax] & -> & Hpa).
    pose proof (proj1 (Forall_forall _ _) Hcal _ Hpa)
      as (mn & mx & np & Hmn & Hmx & Hnp & H0 & Hs).
    exists ax, mn, mx, np. simpl in *.
    rewrite (axes_get_in axes p' ax Hkeys Hpa). auto 10. }
  assert (Hlens : map length mas = shape lik).
  { apply (inj (fmap Some)).
    change (fmap Some (map length mas))
      with (map Some (map length mas)).
    rewrite map_map, Hshape.
    rewrite <- (map_map (fun p => default 0%nat (axes_get axes p))
                  (fun ax => shape lik !! ax)).
    unfold ps. rewrite (sorted_parameters_axes axes (ndim lik)) by auto.
    apply list_eq. intros i.
    rewrite !list_lookup_fmap.
    destruct (Nat.lt_ge_cases i (ndim lik)) as [Hlt|Hge].
    - rewrite lookup_seq_lt by assumption. simpl.
      destruct (lookup_lt_is_Some_2 (shape lik) i Hlt) as [n Hn].
      now rewrite Hn.
    - rewrite lookup_seq_ge by assumption. simpl.
      now rewrite lookup_ge_None_2 by (unfold ndim in Hge; lia). }
  exists (meshgrid mas). split; [|split].
  - unfold parameter_mesh_of. fold ps. rewrite Hrun. reflexivity.
  - unfold meshgrid. rewrite length_imap.
    rewrite <- (length_map length mas), Hlens. reflexivity.
  - apply Forall_forall. intros a Ha. unfold meshgrid in Ha.
    apply elem_of_lookup_imap_1 in Ha as (k & s & -> & _). simpl.
    rewrite Hlens, length_map, length_seq. auto.
Qed.

(** ** Instances on the sample grid *)

Lemma sample_options_ranges (p : string) (mn mx : Q) (np : Z) :
  sample_options p = Some (mn, mx, np) -> ~ mx == mn.
Proof.
  unfold sample_options.
  repeat (destruct (String.eqb p _);
          [intros [= <- <- <-] E; vm_compute in E; discriminate|]).
  discriminate.
Qed.

Lemma approx_equal_one_7_proper (x y : Q) :
  x == y -> approx_equal_one_7 x = approx_equal_one_7 y.
Proof.
  intros E. unfold approx_equal_one_7, Qltb. f_equal.
  destruct (Qle_bool (1 # 10000000) (Qabs (x - 1))) eqn:Hx;
    destruct (Qle_bool (1 # 10000000) (Qabs (y - 1))) eqn:Hy; try reflexivity.
  - apply Qle_bool_iff in Hx. rewrite E in Hx. apply Qle_bool_iff in Hx.
    congruence.
  - apply Qle_bool_iff in Hy. rewrite <- E in Hy. apply Qle_bool_iff in Hy.
    congruence.
Qed.

Lemma sample3_covers : covers axes3 grid3.
Proof.
  apply distinct_axes_cover.
  - apply (bool_decide_unpack _). vm_compute. reflexivity.
  - repeat constructor.
  - reflexivity.
Qed.

Lemma getUnitsFromOptions_succeeds_iff_witness :
  (exists self', getUnitsFromOptions raw3 sample_options = Ok self') <->
  Forall (option_fits sample_options axes3 grid3) (keys axes3).
Proof.
  apply (getUnitsFromOptions_succeeds_iff raw3 axes3 grid3 sample_options);
    reflexivity.
Defined.

Lemma getUnitsFromOptions_calibrates_witness :
  calibrated_by sample_options sample3 "w".
Proof.
  apply (getUnitsFromOptions_calibrates raw3 sample3 axes3 sample_options).
  - reflexivity.
  - vm_compute. reflexivity.
  - apply (bool_decide_unpack _). vm_compute. reflexivity.
Defined.

Lemma load_establishes_registry_witness :
  registry_ok sample3 axes3 grid3 /\ covers axes3 grid3.
Proof.
  apply (load_establishes_registry grid3 axes3 sample_options sample3).
  - vm_compute. reflexivity.
  - apply (bool_decide_unpack _). vm_compute. reflexivity.
  - apply (bool_decide_unpack _). vm_compute. reflexivity.
  - apply sample_options_ranges.
Defined.

Lemma value_at_computed_pixels_witness :
  value sample3 [3 # 4; -(1 # 2); 1] = Ok (Some 4).
Proof.
  rewrite (value_at_computed_pixels sample3 grid3 axes3 [0; 1; 1]%Z
             [3 # 4; -(1 # 2); 1]);
    try reflexivity.
  - apply sample3_registry_ok.
  - apply sample3_covers.
  - intros p ax mn un c Hin Hmn Hun Hc.
    unfold axes3 in Hin.
    repeat (apply elem_of_cons in Hin as [[= -> ->]|Hin];
            [vm_compute in Hmn, Hun, Hc;
             injection Hmn as <-; injection Hun as <-; injection Hc as <-;
             vm_compute; reflexivity|]).
    inversion Hin.
Defined.

Lemma setUnits_alone_leaves_no_pixel_count_witness :
  exists self',
    setUnits raw3 "w" (-2) 0 1 = Ok self' /\
    marginal self' "w" None = Err KeyError /\
    slice self' "w" (-1) = Err KeyError.
Proof.
  destruct (setUnits raw3 "w" (-2) 0 1) as [self'|e] eqn:E;
    [|vm_compute in E; discriminate].
  exists self'. split; [reflexivity|].
  destruct (setUnits_alone_leaves_no_pixel_count raw3 self' grid3 "w"
              (-2) 0 1 E) as [Hm Hs]; try reflexivity.
  split; [apply Hm|]. apply Hs.
  - intros H. vm_compute in H. discriminate.
  - cbn. lia.
Defined.

Lemma no_reduction_of_1d_grid_witness :
  exists self,
    flat_w 3 = Ok self /\ marginalize self "w" = Err IndexError.
Proof.
  destruct (flat_w 3) as [self|e] eqn:E; [|vm_compute in E; discriminate].
  exists self. split; [reflexivity|].
  vm_compute in E. injection E as <-.
  apply (no_reduction_of_1d_grid _ (mk_ndarray [3]%nat [1; 1; 1]) "w" 0%nat
           0 3); vm_compute; reflexivity.
Defined.

Lemma marginalize_normalises_witness :
  exists self' red,
    marginalized3 = Ok self' /\
    reduced_likelihood self' = Some red /\ arr_sum red == 1.
Proof.
  unfold marginalized3.
  destruct (marginalize sample3 "w") as [self'|e] eqn:E;
    [|vm_compute in E; discriminate].
  destruct (marginalize_normalises sample3 self' "w" grid3 E)
    as (red & Hred & Hsum & _); try reflexivity.
  - intros H. vm_compute in H. discriminate.
  - exists self', red. auto.
Defined.

Lemma level_search_after_marginalize_witness :
  exists self' out,
    marginalized3 = Ok self' /\
    getLikelihoodValues approx_equal_one_7 chi2_seed_exact self'
      [683 # 1000] (1 # 100) 1000%Z = Ok out.
Proof.
  unfold marginalized3.
  destruct (marginalize sample3 "w") as [self'|e] eqn:E;
    [|vm_compute in E; discriminate].
  destruct (level_search_after_marginalize approx_equal_one_7
              chi2_seed_exact sample3 self' "w" grid3 [683 # 1000]
              (1 # 100) 1000%Z approx_equal_one_7_proper)
    as [Hok _]; try reflexivity; try exact E.
  - intros H. vm_compute in H. discriminate.
  - destruct Hok as [out Hout]; [right; reflexivity|].
    exists self', out. auto.
Defined.


Lemma slice_wraps_below_range_witness :
  slice sample3 "w" (-3) = slice sample3 "w" 0.
Proof.
  apply (slice_wraps_below_range sample3 "w" (-2)
           ((0 - -2) / inject_Z (3 - 1)) 3 (-1) (-3) 0);
    try (vm_compute; reflexivity).
  lia.
Defined.

Lemma level_values_ordered_by_closeness_witness :
  exists parmax,
    StronglySorted (fun a b => Qabs (a - parmax) <= Qabs (b - parmax))
      [1; 0].
Proof.
  destruct (level_values_ordered_by_closeness [0; 1; 2] [1; 2; 1]
              (684 # 1000) 2 [1; 0])
    as (lmax & maximum & parmax & _ & _ & _ & _ & _ & Hsorted).
  - vm_compute. reflexivity.
  - exists parmax. exact Hsorted.
Defined.

Lemma confidence_decreases_with_threshold_witness :
  let lik := mk_ndarray [2; 2]%nat [1 # 10; 2 # 10; 3 # 10; 4 # 10] in
  confidence lik (2 # 10) <= confidence lik (1 # 10).
Proof.
  cbv zeta.
  apply (confidence_decreases_with_threshold
           (mk_ndarray [2; 2]%nat [1 # 10; 2 # 10; 3 # 10; 4 # 10])
           (1 # 10) (2 # 10)).
  - repeat constructor; discriminate.
  - discriminate.
Defined.

Lemma step_never_grows_witness :
  Forall (fun s => 0 < s_step s /\ s_step s <= 4 # 10)
    (search_trace chi2_seed_exact
       (mk_ndarray [2; 2]%nat [1 # 10; 2 # 10; 3 # 10; 4 # 10])
       (4 # 10) (1 # 100) 10%Z [4 # 10; 7 # 10] (4 # 10) 0%Z).
Proof.
  apply (step_never_grows chi2_seed_exact
           (mk_ndarray [2; 2]%nat [1 # 10; 2 # 10; 3 # 10; 4 # 10])
           (4 # 10) (1 # 100) 10%Z [4 # 10; 7 # 10] (4 # 10) 0%Z).
  reflexivity.
Defined.

Lemma marginal_is_laid_out_on_pixels_witness :
  exists r,
    marginal sample3 "w" None = Ok r /\
    length (parameter_range r) = 3%nat.
Proof.
  destruct (marginal sample3 "w" None) as [r|e] eqn:E;
    [|vm_compute in E; discriminate].
  exists r. split; [reflexivity|].
  destruct (marginal_is_laid_out_on_pixels sample3 "w" None r E)
    as (mn & mx & np & _ & _ & Hnp & Hlen & _).
  vm_compute in Hnp. injection Hnp as <-. exact Hlen.
Defined.

Lemma point_at_computed_pixels_witness :
  point reduced_named (5 # 2) (1 # 3) = Err IndexError.
Proof.
  apply (point_at_computed_pixels reduced_named
           (mk_ndarray [2; 2]%nat [1 # 10; 2 # 10; 3 # 10; 4 # 10])
           "Omega_m" "sigma8" [] 0 1 0 1 (5 # 2) (1 # 3)) with (n := 2%nat);
    try reflexivity; try discriminate.
Defined.

Lemma getMaximum_reports_first_maximum_witness :
  exists m pos v,
    getMaximum sample3 "full" = Ok m /\
    data grid3 !! pos = Some v /\ v == 12 /\
    m !! "w" = Some (pixel_to_physical (-2) ((0 - -2) / inject_Z (3 - 1))
                       (Z.of_nat (coord_along grid3 1 3 pos))).
Proof.
  destruct (getMaximum sample3 "full") as [m|e] eqn:E;
    [|vm_compute in E; discriminate].
  destruct (getMaximum_reports_first_maximum sample3 grid3 axes3 m)
    as (pos & v & top & [Htop _] & (Hv & Heq & _) & _ & Hset & _);
    try reflexivity; try exact E.
  - apply sample3_registry_ok.
  - apply sample3_covers.
  - exists m, pos, v. split; [reflexivity|]. split; [exact Hv|].
    split; [vm_compute in Htop; injection Htop as <-; exact Heq|].
    apply (Hset "w" 1%nat); [right; left| | |]; reflexivity.
Defined.

Lemma sample3_mesh :
  exists mesh, parameter_mesh_of sample3 axes3 = Ok mesh /\
               shape (second_parameter mesh) = shape grid3 /\
               length (data (second_parameter mesh)) = length (data grid3) /\
               Forall (fun x => (-2) <= x /\ x <= 0)
                      (data (second_parameter mesh)).
Proof.
  destruct (parameter_mesh_of sample3 axes3) as [mesh|e] eqn:E;
    [|vm_compute in E; discriminate].
  exists mesh. split; [reflexivity|].
  vm_compute in E. injection E as <-.
  split; [reflexivity|]. split; [reflexivity|].
  repeat constructor; discriminate.
Qed.

Lemma grid3_nonnegative : Forall (fun x => 0 <= x) (data grid3).
Proof. repeat constructor; discriminate. Qed.

Lemma expectation_is_a_mean_witness :
  exists e, expectationValue sample3 second_parameter = Ok e /\
            (-2) <= e /\ e <= 0.
Proof.
  destruct sample3_mesh as (mesh & Hmesh & Hshape & Hlen & Hb).
  apply (expectation_is_a_mean sample3 grid3 axes3 mesh second_parameter
           (-2) 0); try reflexivity; auto.
  apply grid3_nonnegative.
Defined.

Lemma variance_is_not_negative_witness :
  exists var, variance sample3 second_parameter = Ok var /\ 0 <= var.
Proof.
  destruct sample3_mesh as (mesh & Hmesh & Hshape & _).
  apply (variance_is_not_negative sample3 grid3 axes3 mesh second_parameter);
    try reflexivity; auto.
  apply grid3_nonnegative.
Defined.

Lemma parameter_mesh_matches_grid_witness :
  exists mesh,
    parameter_mesh_of sample3 axes3 = Ok mesh /\ length mesh = 3%nat.
Proof.
  destruct (parameter_mesh_matches_grid sample3 grid3 axes3)
    as (mesh & Hm & Hl & _).
  - apply (bool_decide_unpack _). vm_compute. reflexivity.
  - apply (bool_decide_unpack _). vm_compute. reflexivity.
  - reflexivity.
  - repeat constructor; simpl; eexists _, _, _;
      repeat (split; [vm_compute; reflexivity|]);
      (split; [lia|reflexivity]).
  - exists mesh. auto.
Defined.
